(** * pganonymize: the provider registry and the deterministic providers

    A shallow embedding of [pganonymize/providers.py]: the provider
    registry ([ProviderRegistry.register], [ProviderRegistry.get_provider])
    and the providers whose result is a function of the original value
    ([mask], [partial_mask], [md5], [fiscalcode], [vatnumber],
    [fiscalcodebusiness], [fiscalcodevat]).

    Conventions of the embedding.

    - A Python [str] is a [list ascii]; each [ascii] stands for the code
      point U+0000..U+00FF of the same number, so [len], indexing and
      slicing count characters the way Python does, and
      [str.encode('utf-8')] yields one byte below U+0080 and two bytes
      from there on.  Code points above U+00FF are outside the model.
    - A Python [int] is a [Z]; a byte string is a [list Z] of values in
      [0, 256).
    - An operation that may raise returns a [result]; exceptions are the
      constructors of [exn].
    - Keyword arguments are a record of optional fields, [None] standing
      for a key that is absent.

    A second part embeds the rest of the module and [pganonymize/cli.py]:
    the providers that draw at random, on an explicit state of the
    generator; [FakerInitializer], [FakeProvider] and [SameYearProvider],
    with the Faker library and the configuration as parameters; and
    [cli.main] as the sequence of its calls on the outside. *)

From Stdlib Require Import String Ascii DecimalString ZArith Bool Lia List.
Import ListNotations.
Open Scope Z_scope.

(* ------------------------------------------------------------------ *)
(** ** Python values, exceptions and builtins *)

Module Py.

Definition str := list ascii.

(** A string literal as a [str]. *)
Definition lit (s : string) : str := list_ascii_of_string s.

(** The double-quote character, used in the registry's messages. *)
Definition dquote : str := [ascii_of_nat 34].

Inductive exn : Type :=
| IndexError
| ValueError
| ReError
| InvalidProvider (msg : str)
| ProviderAlreadyRegistered (msg : str).

Inductive result (A : Type) : Type :=
| Ok (a : A)
| Raise (e : exn).

Arguments Ok {A} a.
Arguments Raise {A} e.

Definition bind {A B : Type} (m : result A) (k : A -> result B) : result B :=
  match m with
  | Ok a => k a
  | Raise e => Raise e
  end.

(** [len(x)] *)
Definition len {A : Type} (l : list A) : Z := Z.of_nat (List.length l).

(** A slice bound [i] brought into [0, n]: a negative bound counts from
    the end, and both sides are clamped. *)
Definition clamp_index (n i : Z) : Z :=
  if i <? 0 then Z.max 0 (i + n) else Z.min i n.

(** [l[start:stop]] with step 1; [None] is an omitted bound. *)
Definition slice {A : Type} (l : list A) (start stop : option Z) : list A :=
  let n := len l in
  let a := match start with None => 0 | Some i => clamp_index n i end in
  let b := match stop with None => n | Some j => clamp_index n j end in
  firstn (Z.to_nat (b - a)) (skipn (Z.to_nat a) l).

(** [l[i]]: a negative index counts from the end; out of range raises
    [IndexError]. *)
Definition getitem {A : Type} (l : list A) (i : Z) : result A :=
  let j := if i <? 0 then i + len l else i in
  if j <? 0 then Raise IndexError
  else match nth_error l (Z.to_nat j) with
       | Some x => Ok x
       | None => Raise IndexError
       end.

Fixpoint update_nth {A : Type} (l : list A) (k : nat) (v : A) : list A :=
  match l, k with
  | [], _ => []
  | _ :: t, O => v :: t
  | x :: t, S k' => x :: update_nth t k' v
  end.

(** [l[i] = v] on a list: the list after the assignment, or [IndexError]. *)
Definition setitem {A : Type} (l : list A) (i : Z) (v : A) : result (list A) :=
  let j := if i <? 0 then i + len l else i in
  if (j <? 0) || (len l <=? j) then Raise IndexError
  else Ok (update_nth l (Z.to_nat j) v).

(** [s * n] (and [n * s]) on a string: [n] copies, none when [n <= 0]. *)
Definition str_mul (s : str) (n : Z) : str :=
  concat (repeat s (Z.to_nat n)).

(** [sep.join(parts)] *)
Fixpoint join (sep : str) (parts : list str) : str :=
  match parts with
  | [] => []
  | [p] => p
  | p :: rest => p ++ sep ++ join sep rest
  end.

(** [range(start, stop, step)] for a positive step. *)
Definition range (start stop step : Z) : list Z :=
  map (fun k => start + step * Z.of_nat k)
      (seq 0 (Z.to_nat ((stop - start + step - 1) / step))).

(** A [for] loop that appends one computed element per item. *)
Fixpoint for_append {A B : Type} (f : A -> result B) (l : list A) : result (list B) :=
  match l with
  | [] => Ok []
  | x :: t =>
      match f x with
      | Ok y => match for_append f t with
                | Ok ys => Ok (y :: ys)
                | Raise e => Raise e
                end
      | Raise e => Raise e
      end
  end.

(** [x in l] for a list of strings. *)
Definition str_eqb (a b : str) : bool :=
  if list_eq_dec ascii_dec a b then true else false.

Definition contains (l : list str) (x : str) : bool := existsb (str_eqb x) l.

(** [ord(c)] and [chr(n)] on the code points of the model. *)
Definition ord (c : ascii) : Z := Z.of_N (N_of_ascii c).
Definition chr (n : Z) : str := [ascii_of_N (Z.to_N n)].

(** [str(n)] for an integer. *)
Definition str_of_int (n : Z) : str :=
  list_ascii_of_string (NilZero.string_of_int (Z.to_int n)).

(** The value of a character as a digit in base [base], if it is one. *)
Definition digit_value (base : Z) (c : ascii) : option Z :=
  let o := ord c in
  let v := if (48 <=? o) && (o <=? 57) then o - 48
           else if (97 <=? o) && (o <=? 122) then o - 87
           else if (65 <=? o) && (o <=? 90) then o - 55
           else base in
  if v <? base then Some v else None.

Fixpoint int_digits (base : Z) (acc : Z) (s : str) : result Z :=
  match s with
  | [] => Ok acc
  | c :: t =>
      match digit_value base c with
      | Some v => int_digits base (base * acc + v) t
      | None => Raise ValueError
      end
  end.

(** [int(s, base)] on a string of digits of that base (no sign, prefix,
    blanks or underscores: the callers pass digits only); anything else
    raises [ValueError]. *)
Definition int_of_str (s : str) (base : Z) : result Z :=
  match s with
  | [] => Raise ValueError
  | _ => int_digits base 0 s
  end.

(** [s[i]] on a string: the one-character string at [i]. *)
Definition str_getitem (s : str) (i : Z) : result str :=
  match getitem s i with
  | Ok c => Ok [c]
  | Raise e => Raise e
  end.

(** Whether a character is a digit for [str.isdigit]: Unicode
    Numeric_Type Decimal or Digit, which below U+0100 is 0..9 and the
    superscripts U+00B2, U+00B3 and U+00B9. *)
Definition digit_char (c : ascii) : bool :=
  let o := ord c in
  ((48 <=? o) && (o <=? 57)) || (o =? 178) || (o =? 179) || (o =? 185).

(** [s.isdigit()]: every character is a digit and there is at least one. *)
Definition isdigit (s : str) : bool :=
  match s with
  | [] => false
  | _ => forallb digit_char s
  end.

(** The ASCII decimal digits 0..9. *)
Definition is_decimal_digit (c : ascii) : bool :=
  let o := ord c in (48 <=? o) && (o <=? 57).

Definition is_upper (c : ascii) : bool :=
  let o := ord c in (65 <=? o) && (o <=? 90).

Definition is_lower_hex (c : ascii) : bool :=
  let o := ord c in
  ((48 <=? o) && (o <=? 57)) || ((97 <=? o) && (o <=? 102)).

(** [s.encode('utf-8')] *)
Definition encode_char (c : ascii) : list Z :=
  let o := ord c in
  if o <? 128 then [o]
  else [Z.lor 192 (Z.shiftr o 6); Z.lor 128 (Z.land o 63)].

Definition encode_utf8 (s : str) : list Z := flat_map encode_char s.

End Py.

Import Py.

Declare Scope py_scope.
Delimit Scope py_scope with py.
Notation "x <- m ;; k" := (bind m (fun x => k))
  (at level 61, m at next level, right associativity) : py_scope.
Local Open Scope py_scope.

(* ------------------------------------------------------------------ *)
(** ** [hashlib.md5]: the MD5 message digest of RFC 1321

    32-bit words are integers in [0, 2^32); additions wrap around by
    masking with [0xFFFFFFFF]. *)

Module hashlib.

Definition mask32 : Z := 0xFFFFFFFF.

Definition add32 (x y : Z) : Z := Z.land (x + y) mask32.
Definition not32 (x : Z) : Z := Z.lxor x mask32.
Definition rotl32 (x c : Z) : Z :=
  Z.land (Z.lor (Z.shiftl x c) (Z.shiftr x (32 - c))) mask32.

(** The four auxiliary functions of the rounds. *)
Definition F (b c d : Z) : Z := Z.lor (Z.land b c) (Z.land (not32 b) d).
Definition G (b c d : Z) : Z := Z.lor (Z.land b d) (Z.land c (not32 d)).
Definition H (b c d : Z) : Z := Z.lxor b (Z.lxor c d).
Definition I (b c d : Z) : Z := Z.lxor c (Z.lor b (not32 d)).

(** [K[i] = floor(2^32 * abs(sin(i + 1)))] *)
Definition K : list Z :=
  [ 0xd76aa478; 0xe8c7b756; 0x242070db; 0xc1bdceee;
    0xf57c0faf; 0x4787c62a; 0xa8304613; 0xfd469501;
    0x698098d8; 0x8b44f7af; 0xffff5bb1; 0x895cd7be;
    0x6b901122; 0xfd987193; 0xa679438e; 0x49b40821;
    0xf61e2562; 0xc040b340; 0x265e5a51; 0xe9b6c7aa;
    0xd62f105d; 0x02441453; 0xd8a1e681; 0xe7d3fbc8;
    0x21e1cde6; 0xc33707d6; 0xf4d50d87; 0x455a14ed;
    0xa9e3e905; 0xfcefa3f8; 0x676f02d9; 0x8d2a4c8a;
    0xfffa3942; 0x8771f681; 0x6d9d6122; 0xfde5380c;
    0xa4beea44; 0x4bdecfa9; 0xf6bb4b60; 0xbebfbc70;
    0x289b7ec6; 0xeaa127fa; 0xd4ef3085; 0x04881d05;
    0xd9d4d039; 0xe6db99e5; 0x1fa27cf8; 0xc4ac5665;
    0xf4292244; 0x432aff97; 0xab9423a7; 0xfc93a039;
    0x655b59c3; 0x8f0ccc92; 0xffeff47d; 0x85845dd1;
    0x6fa87e4f; 0xfe2ce6e0; 0xa3014314; 0x4e0811a1;
    0xf7537e82; 0xbd3af235; 0x2ad7d2bb; 0xeb86d391 ].

(** Per-step left rotations. *)
Definition rotations : list Z :=
  [ 7; 12; 17; 22; 7; 12; 17; 22; 7; 12; 17; 22; 7; 12; 17; 22;
    5;  9; 14; 20; 5;  9; 14; 20; 5;  9; 14; 20; 5;  9; 14; 20;
    4; 11; 16; 23; 4; 11; 16; 23; 4; 11; 16; 23; 4; 11; 16; 23;
    6; 10; 15; 21; 6; 10; 15; 21; 6; 10; 15; 21; 6; 10; 15; 21 ].

Record state : Type := mkState { sa : Z; sb : Z; sc : Z; sd : Z }.

Definition init : state :=
  mkState 0x67452301 0xefcdab89 0x98badcfe 0x10325476.

(** Little-endian bytes of a word, and back. *)
Definition le_bytes (n : nat) (w : Z) : list Z :=
  map (fun k => Z.land (Z.shiftr w (8 * Z.of_nat k)) 255) (seq 0 n).

Definition le_word (bs : list Z) : Z :=
  fold_right (fun b acc => b + 256 * acc) 0 bs.

(** Padding: a 1 bit, zeros up to 56 modulo 64, the bit length on 64 bits. *)
Definition pad (msg : list Z) : list Z :=
  let n := len msg in
  msg ++ [128] ++ repeat 0 (Z.to_nat ((55 - n) mod 64))
      ++ le_bytes 8 (Z.land (8 * n) 0xFFFFFFFFFFFFFFFF).

Fixpoint chunks {A : Type} (fuel : nat) (n : nat) (l : list A) : list (list A) :=
  match fuel, l with
  | O, _ => []
  | _, [] => []
  | S fuel', _ => firstn n l :: chunks fuel' n (skipn n l)
  end.

(** One of the 64 steps on the 16 words [M] of a block. *)
Definition step (M : list Z) (st : state) (i : nat) : state :=
  let zi := Z.of_nat i in
  let '(f, g) :=
    if zi <? 16 then (F (sb st) (sc st) (sd st), zi)
    else if zi <? 32 then (G (sb st) (sc st) (sd st), (5 * zi + 1) mod 16)
    else if zi <? 48 then (H (sb st) (sc st) (sd st), (3 * zi + 5) mod 16)
    else (I (sb st) (sc st) (sd st), (7 * zi) mod 16) in
  let f' := add32 (add32 (add32 f (sa st)) (nth i K 0)) (nth (Z.to_nat g) M 0) in
  mkState (sd st) (add32 (sb st) (rotl32 f' (nth i rotations 0))) (sb st) (sc st).

Definition process_block (st : state) (block : list Z) : state :=
  let M := map le_word (chunks 16 4 block) in
  let st' := fold_left (step M) (seq 0 64) st in
  mkState (add32 (sa st) (sa st')) (add32 (sb st) (sb st'))
          (add32 (sc st) (sc st')) (add32 (sd st) (sd st')).

Definition digest_of_state (st : state) : list Z :=
  le_bytes 4 (sa st) ++ le_bytes 4 (sb st) ++ le_bytes 4 (sc st) ++ le_bytes 4 (sd st).

(** [md5(data).digest()]: the 16 bytes of the digest. *)
Definition md5 (data : list Z) : list Z :=
  let padded := pad data in
  digest_of_state (fold_left process_block (chunks (List.length padded) 64 padded) init).

Definition hex_digit (n : Z) : ascii :=
  nth (Z.to_nat n) (lit "0123456789abcdef") "0"%char.

Definition hex_byte (b : Z) : str := [hex_digit (Z.shiftr b 4); hex_digit (Z.land b 15)].

(** [md5(data).hexdigest()] *)
Definition hexdigest (digest : list Z) : str := flat_map hex_byte digest.

End hashlib.



(* ------------------------------------------------------------------ *)
(** ** [re]: a fragment of Python's regular expressions

    Patterns made of literal characters, [.] and the postfix operators
    [*], [+] and [?] on one character.  A pattern outside the fragment is
    reported like one that does not compile. *)

Module re.

Inductive regex : Type :=
| Void
| Eps
| Chr (c : ascii)
| Dot
| Alt (r1 r2 : regex)
| Cat (r1 r2 : regex)
| Star (r : regex).

Definition is_special (c : ascii) : bool :=
  existsb (Ascii.eqb c) (lit "\^$.|?*+()[]{}").

Definition atom (c : ascii) : regex :=
  if Ascii.eqb c "."%char then Dot else Chr c.

(** The pattern as a sequence of atoms, each with its optional operator. *)
Fixpoint parse (p : str) : option regex :=
  match p with
  | [] => Some Eps
  | c :: rest =>
      if is_special c && negb (Ascii.eqb c "."%char) then None
      else
        match rest with
        | q :: rest' =>
            if Ascii.eqb q "*"%char then
              option_map (Cat (Star (atom c))) (parse rest')
            else if Ascii.eqb q "+"%char then
              option_map (Cat (Cat (atom c) (Star (atom c)))) (parse rest')
            else if Ascii.eqb q "?"%char then
              option_map (Cat (Alt (atom c) Eps)) (parse rest')
            else option_map (Cat (atom c)) (parse rest)
        | [] => Some (Cat (atom c) Eps)
        end
  end.

Fixpoint nullable (r : regex) : bool :=
  match r with
  | Void => false
  | Eps => true
  | Chr _ => false
  | Dot => false
  | Alt r1 r2 => nullable r1 || nullable r2
  | Cat r1 r2 => nullable r1 && nullable r2
  | Star _ => true
  end.

(** The derivative by one character; [.] matches all but a newline. *)
Fixpoint deriv (a : ascii) (r : regex) : regex :=
  match r with
  | Void => Void
  | Eps => Void
  | Chr c => if Ascii.eqb a c then Eps else Void
  | Dot => if Ascii.eqb a (ascii_of_nat 10) then Void else Eps
  | Alt r1 r2 => Alt (deriv a r1) (deriv a r2)
  | Cat r1 r2 =>
      if nullable r1 then Alt (Cat (deriv a r1) r2) (deriv a r2)
      else Cat (deriv a r1) r2
  | Star r1 => Cat (deriv a r1) (Star r1)
  end.

(** Whether some prefix of [s] is in the language of [r]. *)
Fixpoint prefix_in (r : regex) (s : str) : bool :=
  nullable r ||
  match s with
  | [] => false
  | a :: t => prefix_in (deriv a r) t
  end.

(** [re.match(re.compile(pattern), s) is not None], or [None] when the
    pattern does not compile. *)
Definition is_match (pattern s : str) : option bool :=
  option_map (fun r => prefix_in r s) (parse pattern).

End re.

(* ------------------------------------------------------------------ *)
(** ** [pganonymize.providers] *)

(** A provider class, as far as the registry looks at it: its name and
    its [regex_match] attribute. *)
Record provider_class : Type := mkClass {
  class_name : string;
  regex_match : bool
}.

(** The keyword arguments the providers below read. [as_number_length]
    is a length, a natural number: with a negative one Python leaves
    integer arithmetic. *)
Record kwargs : Type := mkKwargs {
  kw_sign : option str;
  kw_unmasked_left : option Z;
  kw_unmasked_right : option Z;
  kw_as_number : option bool;
  kw_as_number_length : option N
}.

Definition no_kwargs : kwargs := mkKwargs None None None None None.

(** [kwargs.get(key, default) or default] for a string: an absent or
    empty value gives the default. *)
Definition str_or (x : option str) (default : str) : str :=
  match x with
  | Some (c :: s) => c :: s
  | _ => default
  end.

(** [kwargs.get(key, default) or default] for an integer: an absent or
    zero value gives the default. *)
Definition int_or (x : option Z) (default : Z) : Z :=
  match x with
  | Some n => if n =? 0 then default else n
  | None => default
  end.

(** What [MD5Provider.alter_value] returns: a string or an integer. *)
Inductive value : Type :=
| VStr (s : str)
| VInt (n : Z).

(** *** [ProviderRegistry] *)

(** [self._registry]: an [OrderedDict], the items in insertion order. *)
Definition registry : Type := list (str * provider_class).

(** A method of the registry: it may raise, and leaves a registry. *)
Definition method (A : Type) : Type := registry -> result A * registry.

Definition has_key (r : registry) (k : str) : bool :=
  existsb (fun e => str_eqb (fst e) k) r.

Module ProviderRegistry.

Definition already_registered_msg (provider_id : str) : str :=
  lit "A provider with the id " ++ dquote ++ provider_id ++ dquote
      ++ lit " has already been registered".

Definition not_found_msg (provider_id : str) : str :=
  lit "Could not find provider with id " ++ dquote ++ provider_id ++ dquote.

Definition empty : registry := [].

Definition register (cls : provider_class) (provider_id : str) : method unit :=
  fun r =>
    if has_key r provider_id
    then (Raise (ProviderAlreadyRegistered (already_registered_msg provider_id)), r)
    else (Ok tt, r ++ [(provider_id, cls)]).

Section Lookup.

(** [re_match key s]: whether [re.match(re.compile(key), s)] is not
    [None]; no answer when [re.compile(key)] raises [re.error]. *)
Variable re_match : str -> str -> option bool.

(** The condition of the [if] in [get_provider]:
    [(cls.regex_match is True and re.match(...) is not None) or key == provider_id] *)
Definition entry_matches (provider_id : str) (entry : str * provider_class) : result bool :=
  let '(key, cls) := entry in
  if regex_match cls then
    match re_match key provider_id with
    | Some m => Ok (m || str_eqb key provider_id)
    | None => Raise ReError
    end
  else Ok (str_eqb key provider_id).

Fixpoint find_provider (items : list (str * provider_class)) (provider_id : str)
  : result provider_class :=
  match items with
  | [] => Raise (InvalidProvider (not_found_msg provider_id))
  | entry :: rest =>
      hit <- entry_matches provider_id entry ;;
      if hit then Ok (snd entry) else find_provider rest provider_id
  end.

Definition get_provider (provider_id : str) : method provider_class :=
  fun r => (find_provider r provider_id, r).

End Lookup.

End ProviderRegistry.

(** Sequencing of registry methods; a raised exception stops the run. *)
Definition then_ {A B : Type} (m : method A) (k : method B) : method B :=
  fun r =>
    match m r with
    | (Ok _, r') => k r'
    | (Raise e, r') => (Raise e, r')
    end.

(** The built-in provider classes, in the order of the module. *)
Definition ChoiceProvider := mkClass "ChoiceProvider" false.
Definition ClearProvider := mkClass "ClearProvider" false.
Definition FakeProvider := mkClass "FakeProvider" true.
Definition MaskProviderClass := mkClass "MaskProvider" false.
Definition PartialMaskProviderClass := mkClass "PartialMaskProvider" false.
Definition MD5ProviderClass := mkClass "MD5Provider" false.
Definition SetProvider := mkClass "SetProvider" false.
Definition UUID4Provider := mkClass "UUID4Provider" false.
Definition FiscalCodeProviderClass := mkClass "FiscalCodeProvider" false.
Definition VatNumberProviderClass := mkClass "VatNumberProvider" false.
Definition FiscalCodeBusinessProviderClass := mkClass "FiscalCodeBusinessProvider" false.
Definition FiscalCodeVatNumberProviderClass := mkClass "FiscalCodeVatNumberProvider" false.
Definition PhoneNumberItaProvider := mkClass "PhoneNumberItaProvider" false.
Definition RandomIDCardProvider := mkClass "RandomIDCardProvider" false.
Definition ApiKeyProvider := mkClass "ApiKeyProvider" false.
Definition JsonStringProvider := mkClass "JsonStringProvider" false.
Definition SameYearProvider := mkClass "SameYearProvider" false.

(** The [@register(...)] decorators of the module, run at import. *)
Definition registrations : list (str * provider_class) :=
  [ (lit "choice", ChoiceProvider);
    (lit "clear", ClearProvider);
    (lit "fake.+", FakeProvider);
    (lit "mask", MaskProviderClass);
    (lit "partial_mask", PartialMaskProviderClass);
    (lit "md5", MD5ProviderClass);
    (lit "set", SetProvider);
    (lit "uuid4", UUID4Provider);
    (lit "fiscalcode", FiscalCodeProviderClass);
    (lit "vatnumber", VatNumberProviderClass);
    (lit "fiscalcodebusiness", FiscalCodeBusinessProviderClass);
    (lit "fiscalcodevat", FiscalCodeVatNumberProviderClass);
    (lit "phonenumberita", PhoneNumberItaProvider);
    (lit "randomidcard", RandomIDCardProvider);
    (lit "apikey", ApiKeyProvider);
    (lit "jsonstring", JsonStringProvider);
    (lit "sameyear", SameYearProvider) ].

Definition import_module : method unit :=
  fold_right (fun e k => then_ (ProviderRegistry.register (snd e) (fst e)) k)
             (fun r => (Ok tt, r)) registrations.

(** [provider_registry] once the module is imported. *)
Definition provider_registry : registry := snd (import_module ProviderRegistry.empty).

(** *** [MaskProvider] *)

Module MaskProvider.

Definition default_sign : str := lit "X".

Definition alter_value (original_value : str) (kw : kwargs) : str :=
  let sign := str_or (kw_sign kw) default_sign in
  str_mul sign (len original_value).

End MaskProvider.

(** *** [PartialMaskProvider] *)

Module PartialMaskProvider.

Definition default_sign : str := lit "X".
Definition default_unmasked_left : Z := 1.
Definition default_unmasked_right : Z := 1.

Definition alter_value (original_value : str) (kw : kwargs) : str :=
  let sign := str_or (kw_sign kw) default_sign in
  let unmasked_left := int_or (kw_unmasked_left kw) default_unmasked_left in
  let unmasked_right := int_or (kw_unmasked_right kw) default_unmasked_right in
  slice original_value None (Some unmasked_left)
  ++ str_mul sign (len original_value - (unmasked_left + unmasked_right))
  ++ slice original_value (Some (- unmasked_right)) None.

End PartialMaskProvider.

(** *** [MD5Provider] *)

Module MD5Provider.

Definition default_max_length : N := 8.

Definition alter_value (original_value : str) (kw : kwargs) : result value :=
  let as_number := match kw_as_number kw with Some b => b | None => false end in
  let as_number_length :=
    match kw_as_number_length kw with Some n => n | None => default_max_length end in
  let hashed := hashlib.hexdigest (hashlib.md5 (encode_utf8 original_value)) in
  if as_number then
    n <- int_of_str hashed 16 ;;
    Ok (VInt (n mod (10 ^ Z.of_N as_number_length)))
  else Ok (VStr hashed).

End MD5Provider.

(** *** [FiscalCodeProvider] *)

Module FiscalCodeProvider.

(** [check_day]: the two day digits, and the list [n_day] as the
    assignment leaves it (the caller's [numbers] is the same object). *)
Definition check_day (n_day : list str) : result (list str * list str) :=
  d <- getitem n_day 3 ;;
  v <- int_of_str d 10 ;;
  n_day' <- (if v >? 7 then setitem n_day 3 (str_of_int 1) else Ok n_day) ;;
  Ok (slice n_day' (Some 3) (Some 5), n_day').

Definition char_month : list str :=
  map lit ["A"; "B"; "C"; "D"; "E"; "H"; "L"; "M"; "P"; "R"; "S"; "T"]%string.

Definition check_month (month_character : str) : result str :=
  if contains char_month month_character then Ok month_character
  else
    let index := 4 in
    getitem char_month index.

Definition generate_fiscal_code (fc_characters fc_numbers : list str) : result str :=
  let separator : str := [] in
  let letters := join separator (slice fc_characters None (Some 6)) in
  let year := join separator (slice fc_numbers None (Some 2)) in
  c8 <- getitem fc_characters 8 ;;
  month <- check_month c8 ;;
  dn <- check_day fc_numbers ;;
  let '(day, fc_numbers) := dn in
  c11 <- getitem fc_characters 11 ;;
  let serial := join separator (slice fc_numbers (Some 6) (Some 9)) in
  c12 <- getitem fc_characters 12 ;;
  Ok (((letters ++ year ++ month) ++ join separator day ++ c11) ++ serial ++ c12).

Definition alter_value (original_value : str) (kw : kwargs) : result str :=
  let crypt_fiscal_code := hashlib.hexdigest (hashlib.md5 (encode_utf8 original_value)) in
  let n := 2 in
  let split_string :=
    map (fun index => slice crypt_fiscal_code (Some index) (Some (index + n)))
        (range 0 (len crypt_fiscal_code) n) in
  characters <-
    for_append (fun digit =>
                  digit_hex <- int_of_str digit 16 ;;
                  let digit_char := digit_hex mod 26 in
                  Ok (chr (ord "A"%char + digit_char)))
               split_string ;;
  numbers <-
    for_append (fun digit =>
                  digit_hex <- int_of_str digit 16 ;;
                  let digit_char := digit_hex mod 10 in
                  Ok (str_of_int digit_char))
               (slice split_string (Some 6) None) ;;
  generate_fiscal_code characters numbers.

End FiscalCodeProvider.

(** *** [VatNumberProvider] *)

Module VatNumberProvider.

Definition alter_value (original_value : str) (kw : kwargs) : result str :=
  let vatnumber := slice original_value (Some 2) None in
  let crypt_vat_number := hashlib.hexdigest (hashlib.md5 (encode_utf8 vatnumber)) in
  let n := 2 in
  let split_string :=
    map (fun index => slice crypt_vat_number (Some index) (Some (index + n)))
        (range 0 (len crypt_vat_number) n) in
  numbers <-
    for_append (fun digit => h <- int_of_str digit 16 ;; Ok (str_of_int (h mod 10)))
               split_string ;;
  let separator : str := [] in
  Ok (lit "IT" ++ join separator (slice numbers None (Some 9))).

End VatNumberProvider.

(** *** [FiscalCodeBusinessProvider] *)

Module FiscalCodeBusinessProvider.

Definition alter_value (original_value : str) (kw : kwargs) : result str :=
  let fiscalcode_business := slice original_value None None in
  let crypt_fiscalcode_business := hashlib.hexdigest (hashlib.md5 (encode_utf8 fiscalcode_business)) in
  let n := 2 in
  let split_string :=
    map (fun index => slice crypt_fiscalcode_business (Some index) (Some (index + n)))
        (range 0 (len crypt_fiscalcode_business) n) in
  numbers <-
    for_append (fun digit => h <- int_of_str digit 16 ;; Ok (str_of_int (h mod 10)))
               split_string ;;
  let separator : str := [] in
  Ok (join separator (slice numbers None (Some 9))).

End FiscalCodeBusinessProvider.

(** *** [FiscalCodeVatNumberProvider] *)

Module FiscalCodeVatNumberProvider.

Definition check_day (numbers : list str) : result (list str * list str) :=
  d <- getitem numbers 3 ;;
  v <- int_of_str d 10 ;;
  numbers' <- (if v >? 7 then setitem numbers 3 (str_of_int 1) else Ok numbers) ;;
  Ok (slice numbers' (Some 3) (Some 5), numbers').

Definition char_month : list str :=
  map lit ["A"; "B"; "C"; "D"; "E"; "H"; "L"; "M"; "P"; "R"; "S"; "T"]%string.

Definition check_month (character : str) : result str :=
  if contains char_month character then Ok character
  else
    let index := 4 in
    getitem char_month index.

(** The f-string of [generate_fiscal_code]: its fields are evaluated
    from left to right and concatenated. *)
Definition generate_fiscal_code (characters numbers : list str) : result str :=
  let sep : str := [] in
  let f1 := join sep (slice characters None (Some 6)) in
  let f2 := join sep (slice numbers None (Some 2)) in
  c8 <- getitem characters 8 ;;
  f3 <- check_month c8 ;;
  dn <- check_day numbers ;;
  let '(day, numbers) := dn in
  let f4 := join sep day in
  f5 <- getitem characters 11 ;;
  let f6 := join sep (slice numbers (Some 6) (Some 9)) in
  f7 <- getitem characters 12 ;;
  Ok (f1 ++ f2 ++ f3 ++ f4 ++ f5 ++ f6 ++ f7).

Definition alter_value (original_value : str) (kw : kwargs) : result str :=
  first <- str_getitem original_value 0 ;;
  if isdigit first then
    (* fiscalcode legal entity *)
    let fiscalcode_business := slice original_value None None in
    let crypt_fiscalcode_business := hashlib.hexdigest (hashlib.md5 (encode_utf8 fiscalcode_business)) in
    let n := 2 in
    let split_string :=
      map (fun index => slice crypt_fiscalcode_business (Some index) (Some (index + n)))
          (range 0 (len crypt_fiscalcode_business) n) in
    numbers <-
      for_append (fun digit =>
                    digit_hex <- int_of_str digit 16 ;;
                    let digit_char := digit_hex mod 10 in
                    Ok (str_of_int digit_char))
                 split_string ;;
    let separator : str := [] in
    let generate_fiscalcode_business := join separator (slice numbers None (Some 9)) in
    Ok generate_fiscalcode_business
  else
    (* fiscalcode natural person *)
    let crypt_fiscal_code := hashlib.hexdigest (hashlib.md5 (encode_utf8 original_value)) in
    let n := 2 in
    let split_string :=
      map (fun index => slice crypt_fiscal_code (Some index) (Some (index + n)))
          (range 0 (len crypt_fiscal_code) n) in
    characters <-
      for_append (fun digit =>
                    digit_hex <- int_of_str digit 16 ;;
                    let digit_char := digit_hex mod 26 in
                    Ok (chr (ord "A"%char + digit_char)))
                 split_string ;;
    numbers <-
      for_append (fun digit =>
                    digit_hex <- int_of_str digit 16 ;;
                    let digit_char := digit_hex mod 10 in
                    Ok (str_of_int digit_char))
                 (slice split_string (Some 6) None) ;;
    generate_fiscal_code characters numbers.

End FiscalCodeVatNumberProvider.

(* ------------------------------------------------------------------ *)
(** ** Words of the specification

    The symbols of the derived identifiers, as the specification names
    them: a digest pair is a byte of the digest, the value of two
    consecutive characters of its hexadecimal rendering. *)

(** The [k]-th pair of the digest of [s], as an integer in [0, 255]. *)
Definition digest_pair (s : str) (k : nat) : Z := nth k (hashlib.md5 (encode_utf8 s)) 0.

(** Letter stream: ['A' + (n mod 26)]. *)
Definition letter (n : Z) : str := chr (ord "A"%char + n mod 26).

(** Digit stream: [n mod 10] as a decimal digit. *)
Definition digit (n : Z) : str := str_of_int (n mod 10).

(** The allowed month letters. *)
Definition month_letters : list str :=
  map lit ["A"; "B"; "C"; "D"; "E"; "H"; "L"; "M"; "P"; "R"; "S"; "T"]%string.

(** Month-letter rule: the candidate if allowed, else the 5th allowed letter. *)
Definition month_letter (n : Z) : str :=
  if contains month_letters (letter n) then letter n else nth 4 month_letters [].

(** Day-digits rule for the first day digit: 1 when the digit exceeds 7. *)
Definition day_digit (n : Z) : str :=
  if n mod 10 >? 7 then lit "1" else digit n.

(** The person identifier assembled from the 16 pairs [p]. *)
Definition person_identifier (p : nat -> Z) : str :=
  letter (p 0%nat) ++ letter (p 1%nat) ++ letter (p 2%nat) ++ letter (p 3%nat)
  ++ letter (p 4%nat) ++ letter (p 5%nat)
  ++ digit (p 6%nat) ++ digit (p 7%nat)
  ++ month_letter (p 8%nat)
  ++ day_digit (p 9%nat) ++ digit (p 10%nat)
  ++ letter (p 11%nat)
  ++ digit (p 12%nat) ++ digit (p 13%nat) ++ digit (p 14%nat)
  ++ letter (p 12%nat).

(** The nine digits of the business identifier from the pairs [p]. *)
Definition business_identifier (p : nat -> Z) : str :=
  flat_map (fun k => digit (p k)) (seq 0 9).

(** Character classes and the strings that match a sequence of them. *)
Inductive char_class : Type := Upper | Digit.

Definition in_class (k : char_class) (c : ascii) : bool :=
  match k with
  | Upper => is_upper c
  | Digit => is_decimal_digit c
  end.

Fixpoint matches_classes (ks : list char_class) (s : str) : bool :=
  match ks, s with
  | [], [] => true
  | k :: ks', c :: s' => in_class k c && matches_classes ks' s'
  | _, _ => false
  end.

(** [[A-Z]{6}[0-9]{2}[A-Z][0-9]{2}[A-Z][0-9]{3}[A-Z]] *)
Definition person_pattern : list char_class :=
  repeat Upper 6 ++ repeat Digit 2 ++ [Upper] ++ repeat Digit 2 ++ [Upper]
  ++ repeat Digit 3 ++ [Upper].

(** [[0-9]{9}] *)
Definition business_pattern : list char_class := repeat Digit 9.

(** The digest read as one integer, most significant byte first: the
    value of its hexadecimal rendering in base 16. *)
Definition digest_int (d : list Z) : Z := fold_left (fun acc b => 256 * acc + b) d 0.

(** A byte: an integer in [0, 256). *)
Definition byte_ok (b : Z) : Prop := 0 <= b < 256.

(** The last [n] characters of [s] (all of it when [n] exceeds its length). *)
Definition lastn {A : Type} (n : nat) (l : list A) : list A :=
  skipn (List.length l - n) l.

(* ------------------------------------------------------------------ *)
(** ** Further definitions on the registry *)

(** The keys of a registry, in registration order. *)
Definition keys (r : registry) : list str := map fst r.

(** A run of [register] calls, each on the registry the previous one
    left, whether it raised or not. *)
Definition register_all (calls : list (provider_class * str)) (r : registry) : registry :=
  fold_left (fun r call => snd (ProviderRegistry.register (fst call) (snd call) r)) calls r.

(* ------------------------------------------------------------------ *)
(** ** Further builtins and exceptions *)

(** The exceptions of the remaining providers: those of [exn] and
    three more. *)
Inductive error : Type :=
| Builtin (e : exn)
| TypeError
| KeyError (key : str)
| AttributeError
| InvalidProviderArgument (msg : str).

Inductive outcome (A : Type) : Type :=
| Return (a : A)
| Throw (e : error).

Arguments Return {A} a.
Arguments Throw {A} e.

Definition lift {A : Type} (r : result A) : outcome A :=
  match r with
  | Ok a => Return a
  | Raise e => Throw (Builtin e)
  end.

Fixpoint starts_with (prefix s : str) : bool :=
  match prefix, s with
  | [], _ => true
  | p :: prefix', c :: s' => Ascii.eqb p c && starts_with prefix' s'
  | _ :: _, [] => false
  end.

(** The pieces of [s] from a position on: [skip] characters of a
    separator just found are still to be passed over, [cur] holds the
    current piece in reverse, [maxsplit] the cuts still allowed
    (unlimited when negative). *)
Fixpoint split_from (sep : str) (skip : nat) (maxsplit : Z) (cur s : str) : list str :=
  match s with
  | [] => [rev cur]
  | c :: t =>
      match skip with
      | S k => split_from sep k maxsplit cur t
      | O =>
          if negb (maxsplit =? 0) && starts_with sep s
          then rev cur :: split_from sep (List.length sep - 1) (maxsplit - 1) [] t
          else split_from sep 0 maxsplit (c :: cur) t
      end
  end.

(** [s.split(sep, maxsplit)]; an empty separator raises [ValueError]. *)
Definition split (s sep : str) (maxsplit : Z) : result (list str) :=
  match sep with
  | [] => Raise ValueError
  | _ => Ok (split_from sep 0 maxsplit [] s)
  end.

(** [s.upper()] on ASCII: the letters a..z become A..Z, every other
    character of the ASCII range stays. *)
Definition upper (s : str) : str :=
  map (fun c => let o := ord c in
                if (97 <=? o) && (o <=? 122) then ascii_of_N (Z.to_N (o - 32)) else c) s.

(** [key.ljust(width)], the format [{:<width}] of a string. *)
Definition ljust (s : str) (width : Z) : str :=
  s ++ repeat " "%char (Z.to_nat (width - len s)).

(** [string.ascii_letters] *)
Definition ascii_letters : str :=
  lit "abcdefghijklmnopqrstuvwxyzABCDEFGHIJKLMNOPQRSTUVWXYZ".

(* ------------------------------------------------------------------ *)
(** ** [random]

    The functions of the module on an explicit state of the generator:
    [randbelow n g] is [_randbelow(n)], the draw and the next state. *)

Module random.

Section Source.

Variable rng : Type.
Variable randbelow : Z -> rng -> Z * rng.

(** [random.randint(a, b)]: [randrange(a, b + 1)]. *)
Definition randint (a b : Z) (g : rng) : result Z * rng :=
  let width := b + 1 - a in
  if 0 <? width then
    let '(k, g') := randbelow width g in (Ok (a + k), g')
  else (Raise ValueError, g).

(** [random.choice(seq)] *)
Definition choice {A : Type} (seq : list A) (g : rng) : result A * rng :=
  if len seq =? 0 then (Raise IndexError, g)
  else let '(k, g') := randbelow (len seq) g in (getitem seq k, g').

(** [[f() for _ in range(n)]]: [n] draws, in order. *)
Fixpoint draws {A : Type} (n : nat) (f : rng -> result A * rng) (g : rng)
  : result (list A) * rng :=
  match n with
  | O => (Ok [], g)
  | S n' =>
      match f g with
      | (Ok x, g1) =>
          match draws n' f g1 with
          | (Ok xs, g2) => (Ok (x :: xs), g2)
          | (Raise e, g2) => (Raise e, g2)
          end
      | (Raise e, g1) => (Raise e, g1)
      end
  end.

End Source.

End random.

(** What is assumed of a generator: [_randbelow(n)] is in [0, n). *)
Definition randbelow_in_range {rng : Type} (randbelow : Z -> rng -> Z * rng) : Prop :=
  forall n g, 0 < n -> 0 <= fst (randbelow n g) < n.

(** A source of draws for the examples: the state counts the draws. *)
Definition counting_randbelow (n : Z) (g : Z) : Z * Z := (g mod n, g + 1).

(** *** [ChoiceProvider] *)

Module ChoiceProvider.

Section Source.

Variable rng : Type.
Variable randbelow : Z -> rng -> Z * rng.

(** [values] is [kwargs.get('values')]: [None] when the key is absent. *)
Definition alter_value {A : Type} (values : option (list A)) (g : rng) : outcome A * rng :=
  match values with
  | None => (Throw TypeError, g)
  | Some seq => let '(x, g') := random.choice rng randbelow seq g in (lift x, g')
  end.

End Source.

End ChoiceProvider.

(** *** [PhoneNumberItaProvider] *)

Module PhoneNumberItaProvider.

Section Source.

Variable rng : Type.
Variable randbelow : Z -> rng -> Z * rng.

Definition alter_value (g : rng) : result str * rng :=
  let prefix := lit "+003" in
  let '(digits, g') :=
    random.draws rng 9
      (fun g => let '(k, g1) := random.randint rng randbelow 0 9 g in
                (bind k (fun k => Ok (str_of_int k)), g1)) g in
  (bind digits (fun digits => Ok (prefix ++ join [] digits)), g').

End Source.

End PhoneNumberItaProvider.

(** *** [RandomIDCardProvider] *)

Module RandomIDCardProvider.

Section Source.

Variable rng : Type.
Variable randbelow : Z -> rng -> Z * rng.

Definition alter_value (g : rng) : result str * rng :=
  let '(chars, g1) :=
    random.draws rng 2
      (fun g => let '(c, g') := random.choice rng randbelow ascii_letters g in
                (bind c (fun c => Ok (upper [c])), g')) g in
  match chars with
  | Raise e => (Raise e, g1)
  | Ok chars =>
      let '(numbers, g2) :=
        random.draws rng 7
          (fun g => let '(k, g') := random.randint rng randbelow 0 9 g in
                    (bind k (fun k => Ok (str_of_int k)), g')) g1 in
      (bind numbers (fun numbers => Ok (join [] chars ++ join [] numbers)), g2)
  end.

End Source.

End RandomIDCardProvider.

(** [[A-Z]{2}[0-9]{7}] *)
Definition id_card_pattern : list char_class := repeat Upper 2 ++ repeat Digit 7.

(* ------------------------------------------------------------------ *)
(** ** [datetime.date] and [calendar.isleap] *)

Module datetime.

Record date : Type := mkDate { year : Z; month : Z; day : Z }.

Definition MINYEAR : Z := 1.
Definition MAXYEAR : Z := 9999.

(** [calendar.isleap(year)] *)
Definition isleap (y : Z) : bool :=
  (y mod 4 =? 0) && (negb (y mod 100 =? 0) || (y mod 400 =? 0)).

Definition days_in_month (y m : Z) : Z :=
  if m =? 2 then (if isleap y then 29 else 28)
  else if (m =? 4) || (m =? 6) || (m =? 9) || (m =? 11) then 30
  else 31.

(** The dates that [date(year, month, day)] accepts. *)
Definition valid (d : date) : bool :=
  (MINYEAR <=? year d) && (year d <=? MAXYEAR)
  && (1 <=? month d) && (month d <=? 12)
  && (1 <=? day d) && (day d <=? days_in_month (year d) (month d)).

(** [d.replace(year=y)] and [d.replace(day=n)]: [ValueError] when the
    fields do not make a date. *)
Definition replace_year (d : date) (y : Z) : result date :=
  let d' := mkDate y (month d) (day d) in
  if valid d' then Ok d' else Raise ValueError.

Definition replace_day (d : date) (n : Z) : result date :=
  let d' := mkDate (year d) (month d) n in
  if valid d' then Ok d' else Raise ValueError.

End datetime.

(* ------------------------------------------------------------------ *)
(** ** [FakerInitializer], [FakeProvider] and [SameYearProvider]

    The Faker library, the schema of [pganonymize.config] and
    [datetime.strptime] are outside the sources: what the code uses of
    them is gathered in [externals]. *)

(** [config.schema], as far as [FakerInitializer.options] reads it:
    [schema.get('options', {}).get('faker', {})] and its two keys. *)
Record faker_options : Type := mkFakerOptions {
  default_locale_key : option str;
  locales_key : option (list str)
}.

Record options_dict : Type := mkOptions { faker_key : option faker_options }.

Record schema_dict : Type := mkSchema { options_key : option options_dict }.

Record externals : Type := mkExternals {
  (** a [faker.Faker] proxy, a generator of one locale, a bound method,
      the arguments and the result of a method, and the state of the
      generators *)
  proxy : Type;
  generator : Type;
  func : Type;
  func_kwargs : Type;
  fake_value : Type;
  world : Type;
  (** [Faker(locales)] *)
  Faker : option (list str) -> outcome proxy;
  (** [faker[locale]]; [None] for a [KeyError] *)
  proxy_getitem : proxy -> str -> option generator;
  (** the proxy used as a generator *)
  proxy_generator : proxy -> generator;
  (** [operator.attrgetter(name)(generator)]; the message of the
      [AttributeError] on the right *)
  attrgetter : str -> generator -> func + str;
  (** the call of the method with the keyword arguments *)
  call : func -> func_kwargs -> world -> outcome fake_value * world;
  (** [{}] *)
  empty_kwargs : func_kwargs;
  (** [faker.date_of_birth()] *)
  date_of_birth : proxy -> world -> datetime.date * world;
  (** [random._randbelow(n)] *)
  random_randbelow : Z -> world -> Z * world;
  (** [datetime.datetime.strptime(s, "%Y-%m-%d").year] *)
  strptime_year : str -> result Z
}.

Module FakerInitializer.

Section Methods.

Variable X : externals.

(** The attributes [_faker] and [_options]. *)
Record t : Type := mk { _faker : option (proxy X); _options : option faker_options }.

(** [__init__] *)
Definition init : t := mk None None.

(** The property [options], [schema] being [config.schema] at the time
    of the access. *)
Definition options (schema : schema_dict) (self : t) : faker_options * t :=
  match _options self with
  | Some o => (o, self)
  | None =>
      let o := match options_key schema with
               | Some opts => match faker_key opts with
                              | Some f => f
                              | None => mkFakerOptions None None
                              end
               | None => mkFakerOptions None None
               end in
      (o, mk (_faker self) (Some o))
  end.

(** The property [default_locale]. *)
Definition default_locale (schema : schema_dict) (self : t) : option str * t :=
  let '(o, self) := options schema self in (default_locale_key o, self).

(** The property [faker]. *)
Definition faker (schema : schema_dict) (self : t) : outcome (proxy X) * t :=
  match _faker self with
  | Some f => (Return f, self)
  | None =>
      let '(o, self) := options schema self in
      match Faker X (locales_key o) with
      | Return f => (Return f, mk (Some f) (_options self))
      | Throw e => (Throw e, self)
      end
  end.

Definition unknown_locale_msg (locale : str) : str :=
  lit "Locale '" ++ locale
  ++ lit "' is unknown. Have you added it to the global option (options.faker.locales)?".

Definition get_locale_generator (schema : schema_dict) (locale : str) (self : t)
  : outcome (generator X) * t :=
  match faker schema self with
  | (Return f, self) =>
      match proxy_getitem X f locale with
      | Some g => (Return g, self)
      | None => (Throw (InvalidProviderArgument (unknown_locale_msg locale)), self)
      end
  | (Throw (KeyError _), self) =>
      (Throw (InvalidProviderArgument (unknown_locale_msg locale)), self)
  | (Throw e, self) => (Throw e, self)
  end.

End Methods.

End FakerInitializer.

(** *** [FakeProvider] *)

Module FakeProvider.

Section Methods.

Variable X : externals.

(** The keyword arguments read: ['name'], ['kwargs'] and ['locale'],
    the latter absent ([None]), bound to [None] or bound to a string. *)
Record fake_kwargs : Type := mkFakeKwargs {
  name_key : option str;
  kwargs_key : option (func_kwargs X);
  locale_key : option (option str)
}.

(** [kwargs['name'].split('.', 1)[1]] *)
Definition func_name (kw : fake_kwargs) : outcome str :=
  match name_key kw with
  | None => Throw (KeyError (lit "name"))
  | Some name =>
      lift (parts <- split name (lit ".") 1 ;; getitem parts 1)
  end.

Definition alter_value (kw : fake_kwargs) (schema : schema_dict)
           (faker_initializer : FakerInitializer.t X) (w : world X)
  : outcome (fake_value X) * FakerInitializer.t X * world X :=
  match func_name kw with
  | Throw e => (Throw e, faker_initializer, w)
  | Return func_name =>
      let func_kwargs := match kwargs_key kw with
                         | Some k => k
                         | None => empty_kwargs X
                         end in
      let '(default, faker_initializer) :=
        FakerInitializer.default_locale X schema faker_initializer in
      let locale := match locale_key kw with
                    | Some l => l
                    | None => default
                    end in
      let '(faker_generator, faker_initializer) :=
        match locale with
        | Some (c :: l) =>
            FakerInitializer.get_locale_generator X schema (c :: l) faker_initializer
        | _ =>
            match FakerInitializer.faker X schema faker_initializer with
            | (Return f, st) => (Return (proxy_generator X f), st)
            | (Throw e, st) => (Throw e, st)
            end
        end in
      match faker_generator with
      | Throw e => (Throw e, faker_initializer, w)
      | Return g =>
          match attrgetter X func_name g with
          | inr msg => (Throw (InvalidProviderArgument msg), faker_initializer, w)
          | inl f =>
              let '(v, w) := call X f func_kwargs w in (v, faker_initializer, w)
          end
      end
  end.

End Methods.

End FakeProvider.

(** *** [SameYearProvider] *)

(** The original value of a column: [None], a date or a string. *)
Inductive column_value : Type :=
| CNone
| CDate (d : datetime.date)
| CStr (s : str).

Module SameYearProvider.

Section Methods.

Variable X : externals.

Definition alter_value (original_value : column_value) (schema : schema_dict)
           (faker_initializer : FakerInitializer.t X) (w : world X)
  : outcome (option datetime.date) * FakerInitializer.t X * world X :=
  match original_value with
  | CNone | CStr [] => (Return None, faker_initializer, w)
  | _ =>
      match FakerInitializer.faker X schema faker_initializer with
      | (Throw e, faker_initializer) => (Throw e, faker_initializer, w)
      | (Return f, faker_initializer) =>
          let '(birth_date, w) := date_of_birth X f w in
          let '(birth_date, w) :=
            if datetime.isleap (datetime.year birth_date) then
              let '(n, w) := random.randint (world X) (random_randbelow X) 1 25 w in
              (bind n (datetime.replace_day birth_date), w)
            else (Ok birth_date, w) in
          match birth_date with
          | Raise e => (Throw (Builtin e), faker_initializer, w)
          | Ok birth_date =>
              let year := match original_value with
                          | CDate d => Ok (datetime.year d)
                          | CStr s => strptime_year X s
                          | CNone => Raise ValueError (* excluded above *)
                          end in
              (lift (y <- year ;;
                     d <- datetime.replace_year birth_date y ;;
                     Ok (Some d)),
               faker_initializer, w)
          end
      end
  end.

End Methods.

End SameYearProvider.

(** Externals for the examples: a proxy is the list of its locales, a
    generator a locale, a method its name; the only method is [name];
    the date of birth is 29 February 2000; the state counts the draws. *)
Definition example_externals : externals :=
  mkExternals
    (list str) str str unit str Z
    (fun locales => Return (match locales with Some l => l | None => [lit "en_US"] end))
    (fun f locale => if contains f locale then Some locale else None)
    (fun f => lit "en_US")
    (fun name g => if str_eqb name (lit "name") then inl name
                   else inr (lit "no attribute"))
    (fun f _ w => (Return (lit "Jane Doe"), w + 1))
    tt
    (fun f w => (datetime.mkDate 2000 2 29, w + 1))
    counting_randbelow
    (fun s => int_of_str (slice s None (Some 4)) 10).

Definition example_schema : schema_dict :=
  mkSchema (Some (mkOptions (Some (mkFakerOptions (Some (lit "it_IT"))
                                                  (Some [lit "it_IT"; lit "de_DE"]))))).

(* ------------------------------------------------------------------ *)
(** ** [pganonymize.cli]

    [main] is embedded as the list of the calls it makes on the outside
    (logging, standard output, the configuration, the database), in
    order, when none of them raises, and the value it returns.  A call
    that raises ends [main] there: the calls of such a run are a prefix
    of the list.  [DATABASE_ARGS] and the documentation strings of the
    provider classes are parameters; the Sentry monitor that decorates
    [main] is left out. *)

Module cli.

(** The [argparse.Namespace] of [get_arg_parser]; [init_sql] is [None]
    for its default [False]. *)
Record Namespace : Type := mkNamespace {
  verbose : option Z;
  list_providers : bool;
  schema : str;
  dbname : option str;
  user : option str;
  password : str;
  host : str;
  port : str;
  dry_run : bool;
  dump_file : option str;
  init_sql : option str
}.

(** A [dict] with string keys: its items in insertion order. *)
Definition dict (V : Type) : Type := list (str * V).

(** [d[k] = v]: the value of an existing key is replaced in place, a
    new key goes to the end. *)
Fixpoint dict_set {V : Type} (d : dict V) (k : str) (v : V) : dict V :=
  match d with
  | [] => [(k, v)]
  | (k0, v0) :: rest =>
      if str_eqb k0 k then (k0, v) :: rest else (k0, v0) :: dict_set rest k v
  end.

(** [dict(pairs)] *)
Definition dict_of {V : Type} (pairs : list (str * V)) : dict V :=
  fold_left (fun d kv => dict_set d (fst kv) (snd kv)) pairs [].

Fixpoint dict_get {V : Type} (d : dict V) (k : str) : option V :=
  match d with
  | [] => None
  | (k0, v0) :: rest => if str_eqb k0 k then Some v0 else dict_get rest k
  end.

Inductive loglevel : Type := DEBUG | WARNING.

Inductive log_message : Type :=
| executing_init_sql (sql : str)
| anonymization_took.

Inductive call : Type :=
| logging_basicConfig (level : loglevel)
| print (text : str)
| set_schema_file (path : str)
| get_connection (pg_args : dict (option str))
| connection_cursor
| logging_info (msg : log_message)
| cursor_execute (sql : str)
| cursor_close
| time_time
| truncate_tables
| anonymize_tables (verbose : option Z) (dry_run : bool)
| connection_commit
| connection_close
| create_database_dump (file : str) (pg_args : dict (option str)).

Section Program.

Variable DATABASE_ARGS : list str.
Variable doc : provider_class -> str.

Definition get_pg_args (args : Namespace) : dict (option str) :=
  dict_of (combine DATABASE_ARGS
                   [dbname args; user args; Some (password args);
                    Some (host args); Some (port args)]).

(** The calls of [list_provider_classes] on the registry [providers]. *)
Definition list_provider_classes (providers : registry) : list call :=
  print (lit "Available provider classes:" ++ [ascii_of_nat 10])
  :: map (fun entry => print (ljust (fst entry) 10 ++ lit " " ++ doc (snd entry)))
         providers.

(** The truth value of an optional count. *)
Definition truthy_int (n : option Z) : bool :=
  match n with
  | Some n => negb (n =? 0)
  | None => false
  end.

Definition main (providers : registry) (args : Namespace) : list call * option Z :=
  let loglevel := if truthy_int (verbose args) then DEBUG else WARNING in
  if list_providers args then
    (logging_basicConfig loglevel :: list_provider_classes providers, Some 0)
  else
    let pg_args := get_pg_args args in
    ([logging_basicConfig loglevel;
      set_schema_file (schema args);
      get_connection pg_args]
     ++ (match init_sql args with
         | Some (c :: sql) =>
             [connection_cursor;
              logging_info (executing_init_sql (c :: sql));
              cursor_execute (c :: sql);
              cursor_close]
         | _ => []
         end)
     ++ [time_time; truncate_tables;
         anonymize_tables (verbose args) (dry_run args)]
     ++ (if negb (dry_run args) then [connection_commit] else [])
     ++ [connection_close; time_time; logging_info anonymization_took]
     ++ (match dump_file args with
         | Some (c :: file) => [create_database_dump (c :: file) pg_args]
         | _ => []
         end),
     None).

End Program.

End cli.

(** A call of [create_database_dump]. *)
Definition is_dump (c : cli.call) : Prop :=
  exists file pg_args, c = cli.create_database_dump file pg_args.

(** Arguments for the examples: a dry run with a dump file, and a
    listing of the providers. *)
Definition example_args : cli.Namespace :=
  cli.mkNamespace None false (lit "schema.yml") (Some (lit "db")) (Some (lit "me"))
                  [] (lit "localhost") (lit "5432") true (Some (lit "dump.sql")) None.

Definition example_list_args : cli.Namespace :=
  cli.mkNamespace (Some 1) true (lit "schema.yml") None None
                  [] (lit "localhost") (lit "5432") false None None.

Definition example_database_args : list str :=
  map lit ["dbname"; "user"; "password"; "host"; "port"]%string.

(** A list of known length as the list of its elements. *)
Ltac explicit_list d H :=
  repeat (destruct d as [|? d]; [discriminate H|]);
  destruct d; [clear H | discriminate H].

(* ------------------------------------------------------------------ *)
(** ** Lemmas on the builtins *)

(** A property checked on [0 .. n-1] holds of every integer there. *)
Lemma forall_below (P : Z -> bool) (n : nat) :
  forallb P (map Z.of_nat (seq 0 n)) = true ->
  forall z, 0 <= z < Z.of_nat n -> P z = true.
Proof.
  intros Hall z Hz.
  rewrite forallb_forall in Hall.
  apply Hall. apply in_map_iff.
  exists (Z.to_nat z). split; [lia|].
  apply in_seq. lia.
Qed.

Lemma len_nonneg {A : Type} (l : list A) : 0 <= len l.
Proof. unfold len. lia. Qed.

Lemma join_empty (parts : list str) : join [] parts = concat parts.
Proof.
  induction parts as [|p rest IH]; [reflexivity|].
  destruct rest as [|q rest'].
  - simpl. now rewrite app_nil_r.
  - change (join [] (p :: q :: rest')) with (p ++ [] ++ join [] (q :: rest')).
    rewrite IH. reflexivity.
Qed.

(** A slice with bounds inside the list. *)
Lemma slice_inside {A : Type} (l : list A) (a b : Z) :
  0 <= a -> a <= b -> b <= len l ->
  slice l (Some a) (Some b) = firstn (Z.to_nat (b - a)) (skipn (Z.to_nat a) l).
Proof.
  intros Ha Hab Hb. unfold slice, clamp_index.
  destruct (a <? 0) eqn:Ea; [apply Z.ltb_lt in Ea; lia|].
  destruct (b <? 0) eqn:Eb; [apply Z.ltb_lt in Eb; lia|].
  rewrite !Z.min_l by lia. reflexivity.
Qed.

Lemma slice_upto {A : Type} (l : list A) (b : Z) :
  0 <= b -> slice l None (Some b) = firstn (Z.to_nat b) l.
Proof.
  intros Hb. unfold slice, clamp_index.
  destruct (b <? 0) eqn:Eb; [apply Z.ltb_lt in Eb; lia|].
  rewrite Z.sub_0_r. simpl skipn.
  destruct (Z.le_ge_cases b (len l)) as [Hle|Hge].
  - now rewrite Z.min_l by lia.
  - rewrite Z.min_r by lia. unfold len in *.
    rewrite Nat2Z.id, firstn_all. symmetry. apply firstn_all2. lia.
Qed.

Lemma slice_from {A : Type} (l : list A) (a : Z) :
  0 <= a -> slice l (Some a) None = skipn (Z.to_nat a) l.
Proof.
  intros Ha. unfold slice, clamp_index.
  destruct (a <? 0) eqn:Ea; [apply Z.ltb_lt in Ea; lia|].
  destruct (Z.le_ge_cases a (len l)) as [Hle|Hge].
  - rewrite Z.min_l by lia. apply firstn_all2.
    rewrite length_skipn. unfold len in *. lia.
  - rewrite Z.min_r by lia. unfold len in *.
    rewrite Nat2Z.id, Z.sub_diag. simpl.
    rewrite !skipn_all2; trivial; lia.
Qed.

(** [l[-r:]] for a positive [r]: the last [r] elements. *)
Lemma slice_last {A : Type} (l : list A) (r : Z) :
  0 < r -> slice l (Some (- r)) None = lastn (Z.to_nat r) l.
Proof.
  intros Hr. unfold slice, clamp_index, lastn.
  destruct (- r <? 0) eqn:Er; [|apply Z.ltb_ge in Er; lia].
  unfold len.
  replace (Z.to_nat (Z.max 0 (- r + Z.of_nat (List.length l))))
    with (List.length l - Z.to_nat r)%nat by lia.
  apply firstn_all2. rewrite length_skipn. lia.
Qed.

Lemma slice_all {A : Type} (l : list A) : slice l None None = l.
Proof.
  unfold slice. rewrite Z.sub_0_r. unfold len. rewrite Nat2Z.id.
  simpl. apply firstn_all.
Qed.

Lemma str_mul_nonpos (s : str) (n : Z) : n <= 0 -> str_mul s n = [].
Proof.
  intros Hn. unfold str_mul.
  replace (Z.to_nat n) with 0%nat by lia. reflexivity.
Qed.


(* ------------------------------------------------------------------ *)
(** ** The digest and its hexadecimal rendering *)

Lemma le_bytes_length (n : nat) (w : Z) : List.length (hashlib.le_bytes n w) = n.
Proof. unfold hashlib.le_bytes. now rewrite length_map, length_seq. Qed.

Lemma le_bytes_ok (n : nat) (w : Z) : Forall byte_ok (hashlib.le_bytes n w).
Proof.
  unfold hashlib.le_bytes. apply Forall_forall. intros b Hb.
  apply in_map_iff in Hb. destruct Hb as [k [<- _]].
  unfold byte_ok. change 255 with (Z.ones 8).
  rewrite Z.land_ones by lia. apply Z.mod_pos_bound. lia.
Qed.

(** The test suite of RFC 1321, appendix A.5. *)
Example md5_test_suite :
  map (fun m => hashlib.hexdigest (hashlib.md5 (encode_utf8 (lit m))))
      [ ""; "a"; "abc"; "message digest"; "abcdefghijklmnopqrstuvwxyz";
        "ABCDEFGHIJKLMNOPQRSTUVWXYZabcdefghijklmnopqrstuvwxyz0123456789";
        "12345678901234567890123456789012345678901234567890123456789012345678901234567890"
      ]%string
  = map lit
      [ "d41d8cd98f00b204e9800998ecf8427e"; "0cc175b9c0f1b6a831c399e269772661";
        "900150983cd24fb0d6963f7d28e17f72"; "f96b697d7cb7938d525a2f31aaf161d0";
        "c3fcd3d76192e4007dfb496cca67e13b"; "d174ab98d277d9f5a5611c2c9f419d9f";
        "57edf4a22be3c955ac49da2e2107b67a" ]%string.
Proof. vm_compute. reflexivity. Qed.

(** Two-byte UTF-8 sequences: the digest of U+00B2 U+00E9. *)
Example md5_two_byte_characters :
  encode_utf8 [ascii_of_nat 178; ascii_of_nat 233] = [194; 178; 195; 169]
  /\ hashlib.hexdigest (hashlib.md5 (encode_utf8 [ascii_of_nat 178; ascii_of_nat 233]))
     = lit "d47f23a27f251f971602d8877989192a".
Proof. split; vm_compute; reflexivity. Qed.

Lemma md5_length (data : list Z) : List.length (hashlib.md5 data) = 16%nat.
Proof.
  unfold hashlib.md5, hashlib.digest_of_state.
  rewrite !length_app, !le_bytes_length. reflexivity.
Qed.

Lemma md5_bytes (data : list Z) : Forall byte_ok (hashlib.md5 data).
Proof.
  unfold hashlib.md5, hashlib.digest_of_state.
  repeat (apply Forall_app; split); apply le_bytes_ok.
Qed.

Lemma byte_cases (P : Z -> bool) :
  forallb P (map Z.of_nat (seq 0 256)) = true ->
  forall b, byte_ok b -> P b = true.
Proof. intros H b Hb. apply (forall_below P 256 H). exact Hb. Qed.

(** The two characters of a byte are lowercase hexadecimal digits whose
    values are the two halves of the byte. *)
Lemma hex_byte_digits (b : Z) :
  byte_ok b ->
  digit_value 16 (hashlib.hex_digit (Z.shiftr b 4)) = Some (b / 16) /\
  digit_value 16 (hashlib.hex_digit (Z.land b 15)) = Some (b mod 16) /\
  is_lower_hex (hashlib.hex_digit (Z.shiftr b 4)) = true /\
  is_lower_hex (hashlib.hex_digit (Z.land b 15)) = true.
Proof.
  intros Hb.
  pose (P := fun b =>
    match digit_value 16 (hashlib.hex_digit (Z.shiftr b 4)),
          digit_value 16 (hashlib.hex_digit (Z.land b 15)) with
    | Some h, Some l =>
        (h =? b / 16) && (l =? b mod 16)
        && is_lower_hex (hashlib.hex_digit (Z.shiftr b 4))
        && is_lower_hex (hashlib.hex_digit (Z.land b 15))
    | _, _ => false
    end).
  assert (HP : P b = true) by (apply byte_cases; [vm_compute; reflexivity | exact Hb]).
  unfold P in HP.
  destruct (digit_value 16 (hashlib.hex_digit (Z.shiftr b 4))) as [h|]; [|discriminate].
  destruct (digit_value 16 (hashlib.hex_digit (Z.land b 15))) as [l|]; [|discriminate].
  apply andb_prop in HP. destruct HP as [HP H4].
  apply andb_prop in HP. destruct HP as [HP H3].
  apply andb_prop in HP. destruct HP as [H1 H2].
  apply Z.eqb_eq in H1, H2. subst. auto.
Qed.

(** Reading the two characters of a byte in base 16 appends the byte to
    the number read so far. *)
Lemma int_digits_hex_byte (b acc : Z) (rest : str) :
  byte_ok b ->
  int_digits 16 acc (hashlib.hex_byte b ++ rest) = int_digits 16 (256 * acc + b) rest.
Proof.
  intros Hb. destruct (hex_byte_digits b Hb) as (Hh & Hl & _ & _).
  unfold hashlib.hex_byte. cbn [app int_digits]. rewrite Hh, Hl.
  f_equal. unfold byte_ok in Hb.
  pose proof (Z.div_mod b 16). lia.
Qed.

(** [int(pair, 16)] of the pair of a byte is the byte. *)
Lemma int_of_hex_byte (b : Z) : byte_ok b -> int_of_str (hashlib.hex_byte b) 16 = Ok b.
Proof.
  intros Hb.
  pose proof (int_digits_hex_byte b 0 [] Hb) as H.
  rewrite app_nil_r in H. unfold int_of_str.
  unfold hashlib.hex_byte in *. rewrite H. reflexivity.
Qed.

Lemma hexdigest_length (d : list Z) : List.length (hashlib.hexdigest d) = (2 * List.length d)%nat.
Proof.
  unfold hashlib.hexdigest. induction d as [|b d IH]; [reflexivity|].
  cbn [flat_map]. rewrite length_app, IH. simpl. lia.
Qed.

Lemma hexdigest_lower_hex (d : list Z) :
  Forall byte_ok d -> forallb is_lower_hex (hashlib.hexdigest d) = true.
Proof.
  unfold hashlib.hexdigest. induction 1 as [|b d Hb _ IH]; [reflexivity|].
  cbn [flat_map]. rewrite forallb_app, IH.
  destruct (hex_byte_digits b Hb) as (_ & _ & H1 & H2).
  unfold hashlib.hex_byte. cbn [forallb]. now rewrite H1, H2.
Qed.

(** [int(hexdigest, 16)] is the digest read as one integer. *)
Lemma int_of_hexdigest (d : list Z) :
  Forall byte_ok d -> d <> [] -> int_of_str (hashlib.hexdigest d) 16 = Ok (digest_int d).
Proof.
  intros Hd Hne.
  assert (G : forall acc, int_digits 16 acc (hashlib.hexdigest d)
                          = Ok (fold_left (fun acc b => 256 * acc + b) d acc)).
  { clear Hne. induction Hd as [|b d Hb _ IH]; intros acc; [reflexivity|].
    unfold hashlib.hexdigest. cbn [flat_map fold_left].
    rewrite int_digits_hex_byte by exact Hb. apply IH. }
  destruct d as [|b d']; [congruence|].
  specialize (G 0). unfold int_of_str, digest_int, hashlib.hexdigest in *.
  cbn [flat_map hashlib.hex_byte app] in *. exact G.
Qed.

Lemma digest_int_nonneg (d : list Z) : Forall byte_ok d -> 0 <= digest_int d.
Proof.
  intros Hd. unfold digest_int.
  assert (G : forall acc, 0 <= acc -> 0 <= fold_left (fun acc b => 256 * acc + b) d acc).
  { induction Hd as [|b d Hb _ IH]; intros acc Hacc; [exact Hacc|].
    cbn [fold_left]. apply IH. unfold byte_ok in Hb. lia. }
  apply G. lia.
Qed.

(** The loop that cuts the hexadecimal digest into pairs yields the
    pairs of its bytes. *)
Lemma skipn_hex_pairs (d : list Z) (k : nat) :
  skipn (2 * k) (flat_map hashlib.hex_byte d) = flat_map hashlib.hex_byte (skipn k d).
Proof.
  revert d. induction k as [|k IH]; intros d; [reflexivity|].
  replace (2 * S k)%nat with (S (S (2 * k))) by lia.
  destruct d as [|b d]; [reflexivity|].
  cbn [flat_map hashlib.hex_byte app skipn]. apply IH.
Qed.

Lemma split_string_hexdigest (d : list Z) :
  map (fun index => slice (hashlib.hexdigest d) (Some index) (Some (index + 2)))
      (range 0 (len (hashlib.hexdigest d)) 2)
  = map hashlib.hex_byte d.
Proof.
  unfold range.
  assert (Hlen : len (hashlib.hexdigest d) = 2 * Z.of_nat (List.length d)).
  { unfold len. rewrite hexdigest_length. lia. }
  rewrite Hlen.
  replace (Z.to_nat ((2 * Z.of_nat (List.length d) - 0 + 2 - 1) / 2))
    with (List.length d).
  2:{ replace (2 * Z.of_nat (List.length d) - 0 + 2 - 1)
        with (1 + Z.of_nat (List.length d) * 2) by lia.
      rewrite Z.div_add by lia. change (1 / 2) with 0. lia. }
  rewrite map_map.
  apply nth_error_ext. intros k.
  rewrite !nth_error_map.
  destruct (nth_error d k) as [b|] eqn:Eb.
  - assert (Hk : (k < List.length d)%nat) by (apply nth_error_Some; congruence).
    rewrite nth_error_seq. 
    destruct (Nat.ltb_spec k (List.length d)) as [_|]; [|lia].
    cbn [option_map]. f_equal.
    rewrite slice_inside by lia.
    replace (Z.to_nat (0 + 2 * Z.of_nat (0 + k))) with (2 * k)%nat by lia.
    replace (Z.to_nat (0 + 2 * Z.of_nat (0 + k) + 2 - (0 + 2 * Z.of_nat (0 + k)))) with 2%nat by lia.
    unfold hashlib.hexdigest. rewrite skipn_hex_pairs.
    destruct (nth_error_split d k Eb) as (l1 & l2 & -> & Hl1).
    rewrite skipn_app, Hl1, Nat.sub_diag, skipn_all2 by lia.
    reflexivity.
  - assert (Hk : (List.length d <= k)%nat) by (apply nth_error_None; exact Eb).
    rewrite nth_error_seq.
    destruct (Nat.ltb_spec k (List.length d)) as [|_]; [lia|]. reflexivity.
Qed.

(* ------------------------------------------------------------------ *)
(** ** The symbol streams *)

Lemma letter_upper (n : Z) : exists c, letter n = [c] /\ is_upper c = true.
Proof.
  pose (P := fun r => match chr (ord "A"%char + r) with
                      | [c] => is_upper c
                      | _ => false
                      end).
  assert (HP : P (n mod 26) = true).
  { apply (forall_below P 26); [vm_compute; reflexivity|].
    apply Z.mod_pos_bound. lia. }
  unfold P in HP. unfold letter.
  destruct (chr (ord "A"%char + n mod 26)) as [|c [|c' t]]; try discriminate.
  exists c. split; [reflexivity | exact HP].
Qed.

Lemma digit_decimal (n : Z) :
  exists c, digit n = [c] /\ is_decimal_digit c = true
            /\ int_of_str (digit n) 10 = Ok (n mod 10).
Proof.
  pose (P := fun r => match str_of_int r, int_of_str (str_of_int r) 10 with
                      | [c], Ok v => is_decimal_digit c && (v =? r)
                      | _, _ => false
                      end).
  assert (HP : P (n mod 10) = true).
  { apply (forall_below P 10); [vm_compute; reflexivity|].
    apply Z.mod_pos_bound. lia. }
  unfold P in HP. unfold digit.
  destruct (str_of_int (n mod 10)) as [|c [|c' t]]; try discriminate.
  destruct (int_of_str [c] 10) as [v|e]; [|discriminate].
  apply andb_prop in HP. destruct HP as [Hc Hv]. apply Z.eqb_eq in Hv.
  exists c. repeat split; [exact Hc | now subst].
Qed.

Lemma month_letter_upper (n : Z) : exists c, month_letter n = [c] /\ is_upper c = true.
Proof.
  unfold month_letter. destruct (contains month_letters (letter n)).
  - apply letter_upper.
  - exists "E"%char. split; reflexivity.
Qed.

Lemma day_digit_decimal (n : Z) :
  exists c, day_digit n = [c] /\ is_decimal_digit c = true.
Proof.
  unfold day_digit. destruct (n mod 10 >? 7).
  - exists "1"%char. split; reflexivity.
  - destruct (digit_decimal n) as (c & Hc & Hd & _). now exists c.
Qed.

(** A loop over the pairs of the digest that reads each one in base 16. *)
Lemma for_append_hex_bytes {B : Type} (g : Z -> B) (d : list Z) :
  Forall byte_ok d ->
  for_append (fun digit => bind (int_of_str digit 16) (fun h => Ok (g h)))
             (map hashlib.hex_byte d)
  = Ok (map g d).
Proof.
  induction 1 as [|b d Hb _ IH]; [reflexivity|].
  cbn [map for_append]. rewrite int_of_hex_byte by exact Hb.
  cbn [bind]. now rewrite IH.
Qed.

(** [generate_fiscal_code] on 16 characters and 10 digits, the fourth
    of which reads as [v]. *)
Lemma generate_fiscal_code_eq (cs ns : list str) (v : Z) :
  List.length cs = 16%nat -> List.length ns = 10%nat ->
  int_of_str (nth 3 ns []) 10 = Ok v ->
  FiscalCodeProvider.generate_fiscal_code cs ns
  = Ok (nth 0 cs [] ++ nth 1 cs [] ++ nth 2 cs [] ++ nth 3 cs [] ++ nth 4 cs []
        ++ nth 5 cs [] ++ nth 0 ns [] ++ nth 1 ns []
        ++ (if contains FiscalCodeProvider.char_month (nth 8 cs []) then nth 8 cs []
            else lit "E")
        ++ (if v >? 7 then lit "1" else nth 3 ns []) ++ nth 4 ns []
        ++ nth 11 cs []
        ++ nth 6 ns [] ++ nth 7 ns [] ++ nth 8 ns []
        ++ nth 12 cs []).
Proof.
  intros Hc Hn Hv.
  do 16 (destruct cs as [|? cs]; [discriminate Hc|]).
  destruct cs; [clear Hc | discriminate Hc].
  do 10 (destruct ns as [|? ns]; [discriminate Hn|]).
  destruct ns; [clear Hn | discriminate Hn].
  cbn [nth] in *.
  unfold FiscalCodeProvider.generate_fiscal_code, FiscalCodeProvider.check_month,
    FiscalCodeProvider.check_day.
  cbv -[contains int_of_str Z.gtb FiscalCodeProvider.char_month app].
  rewrite Hv.
  destruct (contains FiscalCodeProvider.char_month _); destruct (v >? 7);
    cbv -[app];
    repeat (progress cbn [app] || rewrite <- app_assoc || rewrite app_nil_r);
    reflexivity.
Qed.

(** The person identifier is assembled from the pairs of the digest. *)
Lemma fiscal_code_of_digest (s : str) (kw : kwargs) :
  FiscalCodeProvider.alter_value s kw = Ok (person_identifier (digest_pair s)).
Proof.
  unfold FiscalCodeProvider.alter_value, digest_pair. cbv zeta.
  pose proof (md5_length (encode_utf8 s)) as Hl.
  pose proof (md5_bytes (encode_utf8 s)) as Hb.
  set (d := hashlib.md5 (encode_utf8 s)) in *.
  rewrite split_string_hexdigest.
  rewrite (for_append_hex_bytes _ d Hb). cbn [bind].
  rewrite slice_from by lia. rewrite skipn_map.
  rewrite (for_append_hex_bytes _ (skipn (Z.to_nat 6) d)).
  2:{ rewrite <- (firstn_skipn (Z.to_nat 6) d) in Hb.
      apply Forall_app in Hb. apply Hb. }
  cbn [bind].
  destruct (digit_decimal (nth 9 d 0)) as (c & _ & _ & Hv).
  rewrite (generate_fiscal_code_eq _ _ (nth 9 d 0 mod 10)).
  - explicit_list d Hl. reflexivity.
  - now rewrite length_map.
  - rewrite length_map, length_skipn, Hl. reflexivity.
  - explicit_list d Hl. exact Hv.
Qed.

Lemma business_digits_of_digest (d : list Z) :
  List.length d = 16%nat -> Forall byte_ok d ->
  bind (for_append (fun digit => bind (int_of_str digit 16)
                                      (fun h => Ok (str_of_int (h mod 10))))
                   (map (fun index => slice (hashlib.hexdigest d) (Some index) (Some (index + 2)))
                        (range 0 (len (hashlib.hexdigest d)) 2)))
       (fun numbers => Ok (join [] (slice numbers None (Some 9))))
  = Ok (business_identifier (fun k => nth k d 0)).
Proof.
  intros Hl Hb.
  rewrite split_string_hexdigest, (for_append_hex_bytes _ d Hb). cbn [bind].
  rewrite join_empty, slice_upto by lia.
  explicit_list d Hl. reflexivity.
Qed.

(** The business identifier is the first nine digits of the digest. *)
Lemma business_of_digest (s : str) (kw : kwargs) :
  FiscalCodeBusinessProvider.alter_value s kw = Ok (business_identifier (digest_pair s)).
Proof.
  unfold FiscalCodeBusinessProvider.alter_value, digest_pair. cbv zeta.
  rewrite slice_all.
  apply business_digits_of_digest; [apply md5_length | apply md5_bytes].
Qed.

(** The VAT number digests the input without its first two characters. *)
Lemma vat_of_digest (s : str) (kw : kwargs) :
  VatNumberProvider.alter_value s kw
  = Ok (lit "IT" ++ business_identifier (digest_pair (slice s (Some 2) None))).
Proof.
  unfold VatNumberProvider.alter_value, digest_pair. cbv zeta.
  pose proof (md5_length (encode_utf8 (slice s (Some 2) None))) as Hl.
  pose proof (md5_bytes (encode_utf8 (slice s (Some 2) None))) as Hb.
  set (d := hashlib.md5 (encode_utf8 (slice s (Some 2) None))) in *.
  rewrite split_string_hexdigest, (for_append_hex_bytes _ d Hb). cbn [bind].
  rewrite join_empty, slice_upto by lia.
  explicit_list d Hl. reflexivity.
Qed.

Lemma business_identifier_digits (p : nat -> Z) :
  List.length (business_identifier p) = 9%nat
  /\ matches_classes business_pattern (business_identifier p) = true.
Proof.
  unfold business_identifier. cbn [seq flat_map].
  repeat match goal with
         | |- context [digit (p ?k)] =>
             let c := fresh "c" in
             let E := fresh "E" in
             let D := fresh "D" in
             destruct (digit_decimal (p k)) as (c & E & D & _); rewrite E; clear E
         end.
  cbn [app List.length business_pattern repeat matches_classes in_class].
  repeat match goal with H : is_decimal_digit _ = true |- _ => rewrite H; clear H end.
  split; reflexivity.
Qed.

Lemma person_identifier_shape (p : nat -> Z) :
  List.length (person_identifier p) = 16%nat
  /\ matches_classes person_pattern (person_identifier p) = true.
Proof.
  unfold person_identifier.
  destruct (month_letter_upper (p 8%nat)) as (m & Em & Um). rewrite Em.
  destruct (day_digit_decimal (p 9%nat)) as (dd & Ed & Dd). rewrite Ed.
  repeat match goal with
         | |- context [digit (p ?k)] =>
             let c := fresh "c" in
             let E := fresh "E" in
             let D := fresh "D" in
             destruct (digit_decimal (p k)) as (c & E & D & _); rewrite E; clear E
         | |- context [letter (p ?k)] =>
             let c := fresh "c" in
             let E := fresh "E" in
             let U := fresh "U" in
             destruct (letter_upper (p k)) as (c & E & U); rewrite E; clear E
         end.
  cbn [app List.length person_pattern repeat matches_classes in_class].
  repeat match goal with
         | H : is_decimal_digit _ = true |- _ => rewrite H; clear H
         | H : is_upper _ = true |- _ => rewrite H; clear H
         end.
  split; reflexivity.
Qed.

(** The inlined copy of [generate_fiscal_code] computes what the
    standalone one computes, on all lists. *)
Lemma generate_fiscal_code_inlined (characters numbers : list str) :
  FiscalCodeVatNumberProvider.generate_fiscal_code characters numbers
  = FiscalCodeProvider.generate_fiscal_code characters numbers.
Proof.
  unfold FiscalCodeVatNumberProvider.generate_fiscal_code,
    FiscalCodeProvider.generate_fiscal_code.
  cbv zeta.
  destruct (getitem characters 8) as [c8|e]; [cbn [bind]|reflexivity].
  change (FiscalCodeVatNumberProvider.check_month c8)
    with (FiscalCodeProvider.check_month c8).
  destruct (FiscalCodeProvider.check_month c8) as [m|e]; [cbn [bind]|reflexivity].
  change (FiscalCodeVatNumberProvider.check_day numbers)
    with (FiscalCodeProvider.check_day numbers).
  destruct (FiscalCodeProvider.check_day numbers) as [[day numbers']|e];
    [cbn [bind]|reflexivity].
  destruct (getitem characters 11) as [c11|e]; [cbn [bind]|reflexivity].
  destruct (getitem characters 12) as [c12|e]; [cbn [bind]|reflexivity].
  f_equal. now rewrite <- !app_assoc.
Qed.

(** The combined provider on a non-empty input: one of the two
    standalone providers, chosen by [isdigit] on the first character. *)
Lemma fiscalcodevat_dispatch (c : ascii) (t : str) (kw : kwargs) :
  FiscalCodeVatNumberProvider.alter_value (c :: t) kw
  = if digit_char c
    then FiscalCodeBusinessProvider.alter_value (c :: t) kw
    else FiscalCodeProvider.alter_value (c :: t) kw.
Proof.
  unfold FiscalCodeVatNumberProvider.alter_value.
  change (str_getitem (c :: t) 0) with (Ok [c]). cbn [bind].
  change (isdigit [c]) with (digit_char c && true). rewrite andb_true_r.
  destruct (digit_char c); [reflexivity|].
  unfold FiscalCodeProvider.alter_value. cbv zeta.
  destruct (for_append _ _) as [characters|e]; [cbn [bind]|reflexivity].
  destruct (for_append _ _) as [numbers|e]; [cbn [bind]|reflexivity].
  apply generate_fiscal_code_inlined.
Qed.

(** A pair of the digest is what [int(pair, 16)] reads from the two
    characters of the hexadecimal digest at its position. *)
Lemma digest_pair_hex (s : str) (k : nat) :
  (k < 16)%nat ->
  int_of_str (slice (hashlib.hexdigest (hashlib.md5 (encode_utf8 s)))
                    (Some (2 * Z.of_nat k)) (Some (2 * Z.of_nat k + 2))) 16
  = Ok (digest_pair s k).
Proof.
  intros Hk. unfold digest_pair.
  pose proof (md5_length (encode_utf8 s)) as Hl.
  pose proof (md5_bytes (encode_utf8 s)) as Hb.
  set (d := hashlib.md5 (encode_utf8 s)) in *.
  assert (Hlen : len (hashlib.hexdigest d) = 32).
  { unfold len. rewrite hexdigest_length, Hl. reflexivity. }
  rewrite slice_inside by lia.
  replace (Z.to_nat (2 * Z.of_nat k)) with (2 * k)%nat by lia.
  replace (Z.to_nat (2 * Z.of_nat k + 2 - 2 * Z.of_nat k)) with 2%nat by lia.
  unfold hashlib.hexdigest. rewrite skipn_hex_pairs.
  assert (Hn : nth_error d k = Some (nth k d 0)) by (apply nth_error_nth'; lia).
  destruct (nth_error_split d k Hn) as (l1 & l2 & E & Hl1).
  rewrite E at 1. rewrite skipn_app, Hl1, Nat.sub_diag, skipn_all2 by lia.
  cbn [app skipn flat_map hashlib.hex_byte firstn].
  apply int_of_hex_byte.
  rewrite Forall_forall in Hb. apply Hb. apply nth_In. lia.
Qed.

(* ------------------------------------------------------------------ *)
(** ** The derived identifiers *)

(** C1. For every input string, the person identifier of [fiscalcode]
    has length 16 and matches
    [[A-Z]{6}[0-9]{2}[A-Z][0-9]{2}[A-Z][0-9]{3}[A-Z]], the business
    identifier of [fiscalcodebusiness] is exactly 9 decimal digits, and
    the VAT number of [vatnumber] is "IT" followed by exactly 9 decimal
    digits. *)
Theorem derived_identifiers_structure (s : str) (kw : kwargs) :
  (exists out, FiscalCodeProvider.alter_value s kw = Ok out
               /\ List.length out = 16%nat
               /\ matches_classes person_pattern out = true)
  /\ (exists out, FiscalCodeBusinessProvider.alter_value s kw = Ok out
                  /\ List.length out = 9%nat
                  /\ matches_classes business_pattern out = true)
  /\ (exists digits, VatNumberProvider.alter_value s kw = Ok (lit "IT" ++ digits)
                     /\ List.length digits = 9%nat
                     /\ matches_classes business_pattern digits = true).
Proof.
  split; [|split].
  - exists (person_identifier (digest_pair s)).
    split; [apply fiscal_code_of_digest | apply person_identifier_shape].
  - exists (business_identifier (digest_pair s)).
    split; [apply business_of_digest | apply business_identifier_digits].
  - exists (business_identifier (digest_pair (slice s (Some 2) None))).
    split; [apply vat_of_digest | apply business_identifier_digits].
Qed.

(** C2. In the person identifier, the month letter (9th character) is
    the letter of digest pair 8 when that letter is one of
    A,B,C,D,E,H,L,M,P,R,S,T and the 5th of these otherwise; the two day
    digits (10th and 11th characters) are the digits of digest pairs 9
    and 10, the first one replaced by 1 when it exceeds 7. *)
Theorem fiscal_code_month_and_day (s : str) (kw : kwargs) :
  exists out,
    FiscalCodeProvider.alter_value s kw = Ok out
    /\ str_getitem out 8
       = Ok (if contains month_letters (letter (digest_pair s 8))
             then letter (digest_pair s 8)
             else nth 4 month_letters [])
    /\ str_getitem out 9
       = Ok (if digest_pair s 9 mod 10 >? 7 then lit "1" else digit (digest_pair s 9))
    /\ str_getitem out 10 = Ok (digit (digest_pair s 10)).
Proof.
  exists (person_identifier (digest_pair s)).
  split; [apply fiscal_code_of_digest|].
  change (if contains month_letters (letter (digest_pair s 8))
          then letter (digest_pair s 8) else nth 4 month_letters [])
    with (month_letter (digest_pair s 8)).
  change (if digest_pair s 9 mod 10 >? 7 then lit "1" else digit (digest_pair s 9))
    with (day_digit (digest_pair s 9)).
  unfold person_identifier.
  destruct (month_letter_upper (digest_pair s 8)) as (m & Em & _). rewrite !Em.
  destruct (day_digit_decimal (digest_pair s 9)) as (dd & Ed & _). rewrite !Ed.
  repeat match goal with
         | |- context [digit (digest_pair s ?k)] =>
             let c := fresh "c" in
             let E := fresh "E" in
             destruct (digit_decimal (digest_pair s k)) as (c & E & _); rewrite !E; clear E
         | |- context [letter (digest_pair s ?k)] =>
             let c := fresh "c" in
             let E := fresh "E" in
             destruct (letter_upper (digest_pair s k)) as (c & E & _); rewrite !E; clear E
         end.
  repeat split; reflexivity.
Qed.

(** C3, as the code has it. On a non-empty input the combined provider
    [fiscalcodevat] returns exactly what [fiscalcodebusiness] returns
    when [isdigit] holds of the first character (a decimal digit 0..9 or
    another Unicode digit such as a superscript digit), and exactly what
    [fiscalcode] returns otherwise. *)
Theorem fiscalcodevat_dispatches_on_isdigit (c : ascii) (t : str) (kw : kwargs) :
  FiscalCodeVatNumberProvider.alter_value (c :: t) kw
  = if isdigit [c]
    then FiscalCodeBusinessProvider.alter_value (c :: t) kw
    else FiscalCodeProvider.alter_value (c :: t) kw.
Proof.
  change (isdigit [c]) with (digit_char c && true). rewrite andb_true_r.
  apply fiscalcodevat_dispatch.
Qed.

(** C3 as stated fails on the input made of the superscript two
    (U+00B2): it is no decimal digit, yet [isdigit] holds of it and the
    business identifier is returned, not the person identifier. *)
Lemma fiscalcodevat_superscript_two :
  is_decimal_digit (ascii_of_nat 178) = false
  /\ FiscalCodeVatNumberProvider.alter_value [ascii_of_nat 178] no_kwargs
     = Ok (lit "915487463")
  /\ FiscalCodeProvider.alter_value [ascii_of_nat 178] no_kwargs
     = Ok (lit "DTZWEJ46E61B694I")
  /\ FiscalCodeVatNumberProvider.alter_value [ascii_of_nat 178] no_kwargs
     <> FiscalCodeProvider.alter_value [ascii_of_nat 178] no_kwargs.
Proof.
  repeat split; try (vm_compute; reflexivity).
  vm_compute. discriminate.
Qed.

(** C4. The fiscal-code derivation is deterministic: its result is a
    function of the input string alone, the same at every invocation
    and whatever the keyword arguments. *)
Theorem fiscal_code_deterministic (s : str) (kw kw' : kwargs) :
  FiscalCodeProvider.alter_value s kw = FiscalCodeProvider.alter_value s kw'
  /\ FiscalCodeProvider.alter_value s kw = Ok (person_identifier (digest_pair s)).
Proof.
  split; [|apply fiscal_code_of_digest].
  now rewrite !fiscal_code_of_digest.
Qed.

(* ------------------------------------------------------------------ *)
(** ** [mask], [partial_mask] and [md5] *)

Lemma int_or_nonzero (x : option Z) (default : Z) :
  default <> 0 -> int_or x default <> 0.
Proof.
  intros Hd. unfold int_or. destruct x as [n|]; [|exact Hd].
  destruct (n =? 0) eqn:E; [exact Hd|]. now apply Z.eqb_neq.
Qed.

Lemma str_or_nonempty (x : option str) (default : str) :
  default <> [] -> str_or x default <> [].
Proof.
  intros Hd. unfold str_or. destruct x as [[|c t]|]; try exact Hd. discriminate.
Qed.

Lemma firstn_min {A : Type} (l : list A) (n : Z) :
  0 <= n -> firstn (Z.to_nat (Z.min n (len l))) l = firstn (Z.to_nat n) l.
Proof.
  intros Hn. destruct (Z.le_ge_cases n (len l)) as [Hle|Hge].
  - now rewrite Z.min_l.
  - rewrite Z.min_r by lia. unfold len in *.
    rewrite !firstn_all2; trivial; lia.
Qed.

Lemma lastn_min {A : Type} (l : list A) (n : Z) :
  0 <= n -> lastn (Z.to_nat (Z.min n (len l))) l = lastn (Z.to_nat n) l.
Proof.
  intros Hn. unfold lastn. f_equal. unfold len. lia.
Qed.

Lemma clamp_stop_min (n l : Z) :
  0 <= n -> clamp_index n (Z.min l n) = clamp_index n l.
Proof.
  intros Hn. unfold clamp_index.
  destruct (Z.ltb_spec (Z.min l n) 0), (Z.ltb_spec l 0); lia.
Qed.

Lemma clamp_start_min (n r : Z) :
  0 <= n -> clamp_index n (- Z.min r n) = clamp_index n (- r).
Proof.
  intros Hn. unfold clamp_index.
  destruct (Z.ltb_spec (- Z.min r n) 0), (Z.ltb_spec (- r) 0); lia.
Qed.

Lemma mask_general (s : str) (kw : kwargs) :
  MaskProvider.alter_value s kw
  = concat (repeat (str_or (kw_sign kw) MaskProvider.default_sign) (List.length s)).
Proof.
  unfold MaskProvider.alter_value, str_mul, len. now rewrite Nat2Z.id.
Qed.

(** C7, as the code has it. The [mask] provider returns the sign
    repeated once per character of the input, the sign being the
    configured string, or "X" when none or the empty string is
    configured: the output is [len(sign) * len(input)] characters long,
    and with a sign of one character it has the length of the input and
    every character of it is the sign; [mask("secret", sign="*")] is
    ["******"]. *)
Theorem mask_repeats_sign :
  (forall (s sign : str) l r n m, sign <> [] ->
     MaskProvider.alter_value s (mkKwargs (Some sign) l r n m)
     = concat (repeat sign (List.length s))
     /\ List.length (MaskProvider.alter_value s (mkKwargs (Some sign) l r n m))
        = (List.length sign * List.length s)%nat)
  /\ (forall (s : str) (c : ascii) l r n m,
        MaskProvider.alter_value s (mkKwargs (Some [c]) l r n m)
        = repeat c (List.length s)
        /\ List.length (MaskProvider.alter_value s (mkKwargs (Some [c]) l r n m))
           = List.length s)
  /\ (forall (s : str) l r n m,
        MaskProvider.alter_value s (mkKwargs None l r n m)
        = repeat "X"%char (List.length s)
        /\ MaskProvider.alter_value s (mkKwargs (Some []) l r n m)
           = repeat "X"%char (List.length s))
  /\ MaskProvider.alter_value (lit "secret") (mkKwargs (Some (lit "*")) None None None None)
     = lit "******".
Proof.
  assert (Hone : forall (s : str) (c : ascii), concat (repeat [c] (List.length s))
                                     = repeat c (List.length s)).
  { intros s c. induction (List.length s) as [|k IH]; simpl; [reflexivity|].
    now rewrite IH. }
  repeat split.
  - rewrite mask_general. cbn [kw_sign]. destruct sign; [congruence|reflexivity].
  - rewrite mask_general. cbn [kw_sign].
    destruct sign as [|a sign]; [congruence|]. cbn [str_or].
    induction (List.length s) as [|k IH]; [simpl; lia|].
    cbn [repeat concat]. rewrite length_app, IH. lia.
  - rewrite mask_general. apply Hone.
  - rewrite mask_general. cbn [kw_sign str_or]. rewrite Hone. apply repeat_length.
  - rewrite mask_general. apply Hone.
  - rewrite mask_general. apply Hone.
Qed.

(** C7 as stated fails for a sign of two characters: the output is
    twice as long as the input. *)
Lemma mask_two_character_sign :
  MaskProvider.alter_value (lit "ab") (mkKwargs (Some (lit "**")) None None None None)
  = lit "****"
  /\ List.length (MaskProvider.alter_value (lit "ab")
                    (mkKwargs (Some (lit "**")) None None None None))
     <> List.length (lit "ab").
Proof.
  split; [reflexivity|]. vm_compute. discriminate.
Qed.

(** C8, as the code has it. With [l] and [r] the effective
    [unmasked_left] and [unmasked_right] (the configured value, or the
    default 1 when none or 0 is configured), neither negative, and an
    input of length at least [l + r], [partial_mask] returns the first
    [l] characters of the input, the sign repeated
    [len(input) - l - r] times, and the last [r] characters. *)
Theorem partial_mask_keeps_ends (s : str) (kw : kwargs) :
  let sign := str_or (kw_sign kw) PartialMaskProvider.default_sign in
  let l := int_or (kw_unmasked_left kw) PartialMaskProvider.default_unmasked_left in
  let r := int_or (kw_unmasked_right kw) PartialMaskProvider.default_unmasked_right in
  0 <= l -> 0 <= r -> l + r <= len s ->
  PartialMaskProvider.alter_value s kw
  = firstn (Z.to_nat l) s ++ str_mul sign (len s - l - r) ++ lastn (Z.to_nat r) s.
Proof.
  intros sign l r Hl Hr Hlen.
  assert (Hr0 : r <> 0) by (apply int_or_nonzero; discriminate).
  unfold PartialMaskProvider.alter_value. fold sign l r.
  rewrite slice_upto by exact Hl.
  rewrite slice_last by lia.
  now replace (len s - (l + r)) with (len s - l - r) by lia.
Qed.

(** [partial_mask("1234567890", unmasked_left=2, unmasked_right=2, sign="X")]
    is ["12XXXXXX90"]. *)
Lemma partial_mask_keeps_ends_example :
  PartialMaskProvider.alter_value (lit "1234567890")
    (mkKwargs (Some (lit "X")) (Some 2) (Some 2) None None)
  = lit "12XXXXXX90".
Proof.
  apply (partial_mask_keeps_ends (lit "1234567890")
           (mkKwargs (Some (lit "X")) (Some 2) (Some 2) None None));
    vm_compute; discriminate.
Defined.

(** C8 as stated fails when 0 is configured for both sides: the
    default 1 is used instead, and the first and last characters are
    kept. *)
Lemma partial_mask_zero_unmasked :
  PartialMaskProvider.alter_value (lit "abc") (mkKwargs None (Some 0) (Some 0) None None)
  = lit "aXc"
  /\ firstn 0 (lit "abc") ++ str_mul (lit "X") (len (lit "abc") - 0 - 0)
       ++ lastn 0 (lit "abc")
     = lit "XXX"
  /\ lit "aXc" <> lit "XXX".
Proof.
  repeat split; try reflexivity. vm_compute. discriminate.
Qed.

(** C10. With [l] and [r] the effective [unmasked_left] and
    [unmasked_right] and an input no longer than [l + r],
    [partial_mask] returns [s[:min(l, len(s))]], nothing for the middle,
    and [s[-min(r, len(s)):]]: for [l] and [r] not negative these are
    the first [min(l, len(s))] and the last [min(r, len(s))] characters
    of the input.  The two ends may overlap and nothing is cut to the
    length of the input. *)
Theorem partial_mask_short_input (s : str) (kw : kwargs) :
  let l := int_or (kw_unmasked_left kw) PartialMaskProvider.default_unmasked_left in
  let r := int_or (kw_unmasked_right kw) PartialMaskProvider.default_unmasked_right in
  len s <= l + r ->
  PartialMaskProvider.alter_value s kw
  = slice s None (Some (Z.min l (len s))) ++ []
    ++ slice s (Some (- Z.min r (len s))) None
  /\ (0 <= l ->
      slice s None (Some (Z.min l (len s))) = firstn (Z.to_nat (Z.min l (len s))) s)
  /\ (0 <= r ->
      slice s (Some (- Z.min r (len s))) None = lastn (Z.to_nat (Z.min r (len s))) s).
Proof.
  intros l r Hlen.
  assert (Hr0 : r <> 0) by (apply int_or_nonzero; discriminate).
  pose proof (len_nonneg s) as Hs.
  split; [|split].
  - unfold PartialMaskProvider.alter_value. fold l r.
    rewrite str_mul_nonpos by lia.
    unfold slice. cbv zeta.
    now rewrite clamp_stop_min, clamp_start_min by exact Hs.
  - intros Hl. apply slice_upto. lia.
  - intros Hr. destruct (Z.eq_dec (len s) 0) as [E|E].
    + assert (s = []) as -> by (destruct s; [reflexivity | unfold len in E; simpl in E; lia]).
      unfold slice, lastn. cbv zeta. now rewrite !skipn_nil, firstn_nil.
    + apply slice_last. lia.
Qed.

(** The input ["ab"] with [unmasked_left = unmasked_right = 2] yields
    ["abab"], longer than the input. *)
Lemma partial_mask_short_input_example :
  PartialMaskProvider.alter_value (lit "ab")
    (mkKwargs None (Some 2) (Some 2) None None)
  = lit "abab"
  /\ slice (lit "ab") None (Some (Z.min 2 (len (lit "ab")))) = lit "ab"
  /\ slice (lit "ab") (Some (- Z.min 2 (len (lit "ab")))) None = lit "ab".
Proof.
  pose proof (partial_mask_short_input (lit "ab")
                (mkKwargs None (Some 2) (Some 2) None None)) as H.
  cbv zeta in H.
  destruct H as (H & _ & _); [vm_compute; discriminate|].
  split; [exact H|]. split; reflexivity.
Defined.

(** C9. The [md5] provider returns the 32 lowercase hexadecimal
    characters of the MD5 digest of the UTF-8 encoded input when
    [as_number] is not set, ["900150983cd24fb0d6963f7d28e17f72"] for
    ["abc"]; when [as_number] is set it returns the digest, read as an
    integer in base 16, modulo [10 ^ as_number_length] (8 by default),
    a number below [10 ^ as_number_length], so below 10000 for the
    length 4. *)
Theorem md5_provider_digest (s : str) (kw : kwargs) :
  let digest := hashlib.md5 (encode_utf8 s) in
  let hashed := hashlib.hexdigest digest in
  let as_number := match kw_as_number kw with Some b => b | None => false end in
  let n := match kw_as_number_length kw with Some n => n | None => 8%N end in
  List.length hashed = 32%nat
  /\ forallb is_lower_hex hashed = true
  /\ int_of_str hashed 16 = Ok (digest_int digest)
  /\ MD5Provider.alter_value s kw
     = Ok (if as_number then VInt (digest_int digest mod 10 ^ Z.of_N n) else VStr hashed)
  /\ 0 <= digest_int digest mod 10 ^ Z.of_N n < 10 ^ Z.of_N n
  /\ MD5Provider.alter_value (lit "abc") no_kwargs
     = Ok (VStr (lit "900150983cd24fb0d6963f7d28e17f72"))
  /\ exists k, MD5Provider.alter_value (lit "abc")
                 (mkKwargs None None None (Some true) (Some 4%N)) = Ok (VInt k)
               /\ 0 <= k < 10000.
Proof.
  intros digest hashed as_number n.
  pose proof (md5_length (encode_utf8 s)) as Hl.
  pose proof (md5_bytes (encode_utf8 s)) as Hb.
  assert (Hint : int_of_str hashed 16 = Ok (digest_int digest)).
  { apply int_of_hexdigest; [exact Hb|].
    intros E. fold digest in Hl. rewrite E in Hl. discriminate. }
  split; [|split; [|split; [|split; [|split; [|split]]]]].
  - unfold hashed. rewrite hexdigest_length. fold digest in Hl. now rewrite Hl.
  - apply hexdigest_lower_hex. exact Hb.
  - exact Hint.
  - unfold MD5Provider.alter_value. fold digest hashed as_number.
    unfold MD5Provider.default_max_length. fold n.
    destruct as_number; [|reflexivity]. now rewrite Hint.
  - apply Z.mod_pos_bound. apply Z.pow_pos_nonneg; lia.
  - vm_compute. reflexivity.
  - exists 3570. split; [vm_compute; reflexivity | lia].
Qed.

(* ------------------------------------------------------------------ *)
(** ** The registry *)

Lemma str_eqb_eq (a b : str) : str_eqb a b = true <-> a = b.
Proof.
  unfold str_eqb. destruct (list_eq_dec ascii_dec a b); split; congruence.
Qed.

(** A match found on a prefix is found on every extension of it. *)
Lemma prefix_in_app (r : re.regex) (s t : str) :
  re.prefix_in r s = true -> re.prefix_in r (s ++ t) = true.
Proof.
  revert r. induction s as [|a s IH]; intros r H.
  - cbn [re.prefix_in] in H. rewrite orb_false_r in H.
    destruct t; cbn [app re.prefix_in]; now rewrite H.
  - cbn [app re.prefix_in] in *.
    apply orb_true_iff in H. apply orb_true_iff.
    destruct H as [H|H]; [now left | right; now apply IH].
Qed.

(** The module registers its seventeen providers without an error, in
    the order of the decorators. *)
Lemma import_module_registry :
  import_module ProviderRegistry.empty = (Ok tt, registrations).
Proof. vm_compute. reflexivity. Qed.

Section RegistryFacts.

Variable re_match : str -> str -> option bool.

Local Abbreviation matches := (ProviderRegistry.entry_matches re_match).
Local Abbreviation find := (ProviderRegistry.find_provider re_match).

(** The test of an entry raises nothing but the error of [re.compile]. *)
Lemma entry_matches_raise (provider_id : str) (entry : str * provider_class) (e : exn) :
  matches provider_id entry = Raise e -> e = ReError.
Proof.
  destruct entry as [key cls]. unfold ProviderRegistry.entry_matches.
  destruct (regex_match cls); [|discriminate].
  destruct (re_match key provider_id); [discriminate|congruence].
Qed.

Lemma find_provider_ok (items : list (str * provider_class)) (provider_id : str)
      (cls : provider_class) :
  find items provider_id = Ok cls <->
  exists before key after,
    items = before ++ (key, cls) :: after
    /\ matches provider_id (key, cls) = Ok true
    /\ Forall (fun e => matches provider_id e = Ok false) before.
Proof.
  split.
  - induction items as [|entry rest IH]; [discriminate|].
    cbn [ProviderRegistry.find_provider].
    destruct (matches provider_id entry) as [[|]|e] eqn:E; cbn [bind]; intros H.
    + injection H as <-. exists [], (fst entry), rest.
      destruct entry; repeat split; [exact E | constructor].
    + destruct (IH H) as (before & key & after & -> & Hm & Hb).
      exists (entry :: before), key, after.
      repeat split; [exact Hm | now constructor].
    + discriminate.
  - intros (before & key & after & -> & Hm & Hb).
    induction Hb as [|entry before He _ IH];
      cbn [app ProviderRegistry.find_provider].
    + now rewrite Hm.
    + rewrite He. exact IH.
Qed.

Lemma find_provider_invalid (items : list (str * provider_class)) (provider_id : str)
      (msg : str) :
  find items provider_id = Raise (InvalidProvider msg) <->
  msg = ProviderRegistry.not_found_msg provider_id
  /\ Forall (fun e => matches provider_id e = Ok false) items.
Proof.
  split.
  - induction items as [|entry rest IH]; cbn [ProviderRegistry.find_provider].
    + intros H. injection H as <-. split; [reflexivity | constructor].
    + destruct (matches provider_id entry) as [[|]|e] eqn:E; cbn [bind]; intros H.
      * discriminate.
      * destruct (IH H) as [-> Hrest]. split; [reflexivity | now constructor].
      * apply entry_matches_raise in E. congruence.
  - intros [-> Hall].
    induction Hall as [|entry rest He _ IH]; cbn [ProviderRegistry.find_provider].
    + reflexivity.
    + rewrite He. exact IH.
Qed.

Lemma pattern_entry_matches (key provider_id : str) (cls : provider_class) :
  regex_match cls = true -> re_match key provider_id = Some true ->
  matches provider_id (key, cls) = Ok true.
Proof.
  intros Hc Hm. unfold ProviderRegistry.entry_matches. now rewrite Hc, Hm.
Qed.

Lemma literal_entry_matches (key provider_id : str) (cls : provider_class) :
  regex_match cls = false ->
  (matches provider_id (key, cls) = Ok true <-> key = provider_id).
Proof.
  intros Hc. unfold ProviderRegistry.entry_matches. rewrite Hc.
  rewrite <- str_eqb_eq. split; [now intros [= ->] | now intros ->].
Qed.

End RegistryFacts.

Lemma register_appends (r : registry) (cls : provider_class) (provider_id : str) :
  has_key r provider_id = false ->
  ProviderRegistry.register cls provider_id r = (Ok tt, r ++ [(provider_id, cls)]).
Proof.
  intros H. unfold ProviderRegistry.register. now rewrite H.
Qed.

(** C5. Resolution is first-match-wins in registration order:
    [register] appends the new entry after the registered ones, and
    [get_provider] returns the class of the first entry, in that order,
    whose test holds; the test of a pattern entry holds when its key
    matches the identifier as a regular expression anchored at the start
    of it, and the test of a literal entry holds only when its key
    equals the identifier.  In the registry of the module,
    ["fake.first_name"] is no key and resolves to [FakeProvider],
    registered under ["fake.+"]. *)
Theorem registry_first_match_wins :
  (forall re_match (r : registry) (provider_id : str) (cls : provider_class),
     fst (ProviderRegistry.get_provider re_match provider_id r) = Ok cls <->
     exists before key after,
       r = before ++ (key, cls) :: after
       /\ ProviderRegistry.entry_matches re_match provider_id (key, cls) = Ok true
       /\ Forall (fun e => ProviderRegistry.entry_matches re_match provider_id e = Ok false)
                 before)
  /\ (forall (r : registry) (cls : provider_class) (provider_id : str),
        has_key r provider_id = false ->
        ProviderRegistry.register cls provider_id r = (Ok tt, r ++ [(provider_id, cls)]))
  /\ (forall re_match (key provider_id : str) (cls : provider_class),
        regex_match cls = true -> re_match key provider_id = Some true ->
        ProviderRegistry.entry_matches re_match provider_id (key, cls) = Ok true)
  /\ (forall re_match (key provider_id : str) (cls : provider_class),
        regex_match cls = false ->
        (ProviderRegistry.entry_matches re_match provider_id (key, cls) = Ok true
         <-> key = provider_id))
  /\ (forall (pattern s t : str),
        re.is_match pattern s = Some true -> re.is_match pattern (s ++ t) = Some true)
  /\ re.is_match (lit "fake.+") (lit "fake.first_name") = Some true
  /\ re.is_match (lit "fake.+") (lit "xfake.first_name") = Some false
  /\ provider_registry = registrations
  /\ has_key provider_registry (lit "fake.first_name") = false
  /\ In (lit "fake.+", FakeProvider) provider_registry
  /\ fst (ProviderRegistry.get_provider re.is_match (lit "fake.first_name") provider_registry)
     = Ok FakeProvider.
Proof.
  split; [|split; [|split; [|split; [|split]]]].
  - intros re_match r provider_id cls. apply find_provider_ok.
  - apply register_appends.
  - apply pattern_entry_matches.
  - apply literal_entry_matches.
  - intros pattern s t. unfold re.is_match.
    destruct (re.parse pattern) as [r|]; [|discriminate].
    cbn [option_map]. intros [= H]. now rewrite prefix_in_app.
  - repeat split; try (vm_compute; reflexivity).
    vm_compute. tauto.
Qed.

(** C6. [get_provider] raises [InvalidProvider] exactly when no
    registered entry matches the identifier, that is when the test of
    every entry is false; it leaves the registry as it is, so that a
    second call with the same identifier returns what the first call
    returned. *)
Theorem get_provider_invalid_iff_no_match
        (re_match : str -> str -> option bool) (r : registry) (provider_id : str) :
  ((exists msg, fst (ProviderRegistry.get_provider re_match provider_id r)
                = Raise (InvalidProvider msg))
   <-> Forall (fun e => ProviderRegistry.entry_matches re_match provider_id e = Ok false) r)
  /\ (Forall (fun e => ProviderRegistry.entry_matches re_match provider_id e = Ok false) r ->
      fst (ProviderRegistry.get_provider re_match provider_id r)
      = Raise (InvalidProvider (ProviderRegistry.not_found_msg provider_id)))
  /\ snd (ProviderRegistry.get_provider re_match provider_id r) = r
  /\ ProviderRegistry.get_provider re_match provider_id
       (snd (ProviderRegistry.get_provider re_match provider_id r))
     = ProviderRegistry.get_provider re_match provider_id r.
Proof.
  cbn [ProviderRegistry.get_provider fst snd].
  split; [|split; [|split]]; try reflexivity.
  - split.
    + intros [msg H]. now apply find_provider_invalid in H.
    + intros H. exists (ProviderRegistry.not_found_msg provider_id).
      now apply find_provider_invalid.
  - intros H. now apply find_provider_invalid.
Qed.

(* ------------------------------------------------------------------ *)
(** ** More on the registry *)

Lemma has_key_In (r : registry) (k : str) :
  has_key r k = true <-> In k (keys r).
Proof.
  unfold has_key, keys. rewrite existsb_exists. split.
  - intros (e & He & Hk). apply str_eqb_eq in Hk. subst. now apply in_map.
  - intros H. apply in_map_iff in H. destruct H as (e & <- & He).
    exists e. split; [exact He | now apply str_eqb_eq].
Qed.

Lemma has_key_app (r1 r2 : registry) (k : str) :
  has_key (r1 ++ r2) k = has_key r1 k || has_key r2 k.
Proof. unfold has_key. apply existsb_app. Qed.

Lemma str_eqb_refl (a : str) : str_eqb a a = true.
Proof. now apply str_eqb_eq. Qed.

Lemma str_eqb_neq (a b : str) : str_eqb a b = false <-> a <> b.
Proof.
  unfold str_eqb. destruct (list_eq_dec ascii_dec a b); split; congruence.
Qed.

(** After [register], in either outcome, the identifier is a key. *)
Lemma register_has_key (r : registry) (cls : provider_class) (provider_id : str) :
  has_key (snd (ProviderRegistry.register cls provider_id r)) provider_id = true.
Proof.
  unfold ProviderRegistry.register.
  destruct (has_key r provider_id) eqn:E; cbn [snd]; [exact E|].
  rewrite has_key_app. cbn [has_key existsb fst]. rewrite str_eqb_refl.
  now rewrite orb_true_r.
Qed.

(** X1. Whatever the outcome of a first [register] under an identifier,
    a second [register] under it, of any class, raises
    [ProviderAlreadyRegistered] and leaves the registry as the first
    call left it. *)
Theorem register_twice_raises (r : registry) (cls cls' : provider_class)
        (provider_id : str) :
  let r1 := snd (ProviderRegistry.register cls provider_id r) in
  ProviderRegistry.register cls' provider_id r1
  = (Raise (ProviderAlreadyRegistered
              (ProviderRegistry.already_registered_msg provider_id)), r1).
Proof.
  intros r1. unfold ProviderRegistry.register at 1.
  unfold r1. now rewrite register_has_key.
Qed.

Lemma register_keys_distinct (r : registry) (cls : provider_class) (provider_id : str) :
  NoDup (keys r) -> NoDup (keys (snd (ProviderRegistry.register cls provider_id r))).
Proof.
  intros Hr. unfold ProviderRegistry.register.
  destruct (has_key r provider_id) eqn:E; cbn [snd]; [exact Hr|].
  unfold keys. rewrite map_app. cbn [map fst].
  apply NoDup_app; [exact Hr | repeat constructor; intros [] |].
  intros k Hk [<-|[]].
  apply has_key_In in Hk. congruence.
Qed.

Lemma register_keeps_entries (r : registry) (cls : provider_class) (provider_id : str)
      (e : str * provider_class) :
  In e r -> In e (snd (ProviderRegistry.register cls provider_id r)).
Proof.
  intros He. unfold ProviderRegistry.register.
  destruct (has_key r provider_id); cbn [snd]; [exact He|].
  apply in_or_app. now left.
Qed.

(** X2. Any run of [register] calls from the empty registry, failed
    ones included, leaves a registry whose keys are pairwise distinct,
    and no call of the run removes or replaces an entry made before it:
    the first class registered under an identifier stays. *)
Theorem register_all_keys_distinct (calls : list (provider_class * str)) :
  NoDup (keys (register_all calls ProviderRegistry.empty))
  /\ forall (before after : list (provider_class * str)) (e : str * provider_class),
       calls = before ++ after ->
       In e (register_all before ProviderRegistry.empty) ->
       In e (register_all calls ProviderRegistry.empty).
Proof.
  assert (Hd : forall cs r, NoDup (keys r) -> NoDup (keys (register_all cs r))).
  { induction cs as [|c cs IH]; intros r Hr; [exact Hr|].
    cbn [register_all fold_left]. apply IH. now apply register_keys_distinct. }
  assert (Hk : forall cs r e, In e r -> In e (register_all cs r)).
  { induction cs as [|c cs IH]; intros r e He; [exact He|].
    cbn [register_all fold_left]. apply IH. now apply register_keeps_entries. }
  split.
  - apply Hd. constructor.
  - intros before after e -> He.
    unfold register_all. rewrite fold_left_app. now apply Hk.
Qed.

Section RegistryLookupFacts.

Variable re_match : str -> str -> option bool.

Local Abbreviation matches' := (ProviderRegistry.entry_matches re_match).
Local Abbreviation find' := (ProviderRegistry.find_provider re_match).

(** Looking up in a registry with one more entry at its end. *)
Lemma find_provider_snoc (r : registry) (e : str * provider_class) (provider_id : str) :
  find' (r ++ [e]) provider_id
  = match find' r provider_id with
    | Ok c => Ok c
    | Raise (InvalidProvider _) => find' [e] provider_id
    | Raise x => Raise x
    end.
Proof.
  induction r as [|e0 r IH]; [reflexivity|].
  cbn [app ProviderRegistry.find_provider].
  destruct (matches' provider_id e0) as [[|]|x] eqn:E; cbn [bind].
  - reflexivity.
  - exact IH.
  - apply entry_matches_raise in E. now subst.
Qed.

Lemma find_provider_raise (r : registry) (provider_id : str) (x : exn) :
  find' r provider_id = Raise x ->
  x = ReError \/ x = InvalidProvider (ProviderRegistry.not_found_msg provider_id).
Proof.
  induction r as [|e0 r IH]; cbn [ProviderRegistry.find_provider].
  - intros [= <-]. now right.
  - destruct (matches' provider_id e0) as [[|]|y] eqn:E; cbn [bind].
    + discriminate.
    + exact IH.
    + intros [= <-]. apply entry_matches_raise in E. now left.
Qed.

Lemma register_then_get (r : registry) (cls : provider_class) (provider_id : str) :
  has_key r provider_id = false -> regex_match cls = false ->
  fst (ProviderRegistry.get_provider re_match provider_id
         (snd (ProviderRegistry.register cls provider_id r)))
  = match fst (ProviderRegistry.get_provider re_match provider_id r) with
    | Ok c => Ok c
    | Raise (InvalidProvider _) => Ok cls
    | Raise x => Raise x
    end.
Proof.
  intros Hk Hc. rewrite register_appends by exact Hk.
  cbn [snd fst ProviderRegistry.get_provider].
  rewrite find_provider_snoc.
  destruct (find' r provider_id) as [c|[]]; try reflexivity.
  cbn [ProviderRegistry.find_provider ProviderRegistry.entry_matches].
  rewrite Hc, str_eqb_refl. reflexivity.
Qed.

Lemma register_frame (r : registry) (cls : provider_class) (provider_id other : str) :
  has_key r provider_id = false -> regex_match cls = false ->
  other <> provider_id ->
  fst (ProviderRegistry.get_provider re_match other
         (snd (ProviderRegistry.register cls provider_id r)))
  = fst (ProviderRegistry.get_provider re_match other r).
Proof.
  intros Hk Hc Hne. rewrite register_appends by exact Hk.
  cbn [snd fst ProviderRegistry.get_provider].
  rewrite find_provider_snoc.
  destruct (find' r other) as [c|x] eqn:E; [reflexivity|].
  destruct (find_provider_raise r other x E) as [->| ->]; [reflexivity|].
  cbn [ProviderRegistry.find_provider ProviderRegistry.entry_matches].
  rewrite Hc. assert (Hf : str_eqb provider_id other = false)
    by (apply str_eqb_neq; congruence).
  now rewrite Hf.
Qed.

Lemma own_key_resolves (r : registry) (k : str) (cls : provider_class) :
  NoDup (keys r) -> In (k, cls) r -> regex_match cls = false ->
  (forall key c, In (key, c) r -> regex_match c = true -> key <> k ->
                 re_match key k = Some false) ->
  find' r k = Ok cls.
Proof.
  intros Hd Hin Hc Hpat.
  apply find_provider_ok.
  destruct (in_split _ _ Hin) as (before & after & ->).
  exists before, k, after. split; [reflexivity|]. split.
  - cbn [ProviderRegistry.entry_matches]. now rewrite Hc, str_eqb_refl.
  - apply Forall_forall. intros [key c] He.
    assert (Hne : key <> k).
    { intros ->. unfold keys in Hd. rewrite map_app in Hd. cbn [map fst] in Hd.
      apply NoDup_remove_2 in Hd. apply Hd. apply in_or_app. left.
      change k with (fst (k, c)). now apply in_map. }
    assert (Hf : str_eqb key k = false) by now apply str_eqb_neq.
    cbn [ProviderRegistry.entry_matches].
    destruct (regex_match c) eqn:Ec.
    + rewrite (Hpat key c); [now rewrite Hf | | exact Ec | exact Hne].
      apply in_or_app. now left.
    + now rewrite Hf.
Qed.

End RegistryLookupFacts.

(** X3. After a provider class without [regex_match] is registered
    under a new identifier, [get_provider] on that identifier returns
    the class that an earlier entry already gave for it, if one
    matched (an earlier pattern shadows the new entry), and the new
    class otherwise.  In the registry of the module, a class registered
    under ["fake.custom"] is never returned: the identifier still
    resolves to [FakeProvider]. *)
Theorem register_then_get_provider :
  (forall re_match (r : registry) (cls : provider_class) (provider_id : str),
     has_key r provider_id = false -> regex_match cls = false ->
     fst (ProviderRegistry.get_provider re_match provider_id
            (snd (ProviderRegistry.register cls provider_id r)))
     = match fst (ProviderRegistry.get_provider re_match provider_id r) with
       | Ok c => Ok c
       | Raise (InvalidProvider _) => Ok cls
       | Raise x => Raise x
       end)
  /\ (forall cls : provider_class,
        regex_match cls = false ->
        exists r',
          ProviderRegistry.register cls (lit "fake.custom") provider_registry = (Ok tt, r')
          /\ fst (ProviderRegistry.get_provider re.is_match (lit "fake.custom") r')
             = Ok FakeProvider).
Proof.
  split; [apply register_then_get|].
  intros cls Hc.
  exists (provider_registry ++ [(lit "fake.custom", cls)]).
  split; [reflexivity|].
  pose proof (register_then_get re.is_match provider_registry cls (lit "fake.custom")
                eq_refl Hc) as H.
  rewrite register_appends in H by reflexivity. exact H.
Qed.

(** X4. Registering a class without [regex_match] under a new
    identifier changes the result of [get_provider] for no other
    identifier. *)
Theorem register_leaves_other_lookups
        (re_match : str -> str -> option bool) (r : registry)
        (cls : provider_class) (provider_id other : str) :
  has_key r provider_id = false -> regex_match cls = false ->
  other <> provider_id ->
  fst (ProviderRegistry.get_provider re_match other
         (snd (ProviderRegistry.register cls provider_id r)))
  = fst (ProviderRegistry.get_provider re_match other r).
Proof. apply register_frame. Qed.

Lemma register_leaves_other_lookups_example :
  fst (ProviderRegistry.get_provider re.is_match (lit "md5")
         (snd (ProviderRegistry.register (mkClass "Custom" false) (lit "custom")
                 provider_registry)))
  = fst (ProviderRegistry.get_provider re.is_match (lit "md5") provider_registry).
Proof.
  apply (register_leaves_other_lookups re.is_match provider_registry
           (mkClass "Custom" false) (lit "custom") (lit "md5"));
    [reflexivity | reflexivity | discriminate].
Defined.

(** X5. In a registry with distinct keys, the key of an entry without
    [regex_match] resolves to the class of that entry, provided no
    pattern entry matches the key.  So each of the sixteen literal
    identifiers of the module resolves to its own class. *)
Theorem literal_key_resolves_to_its_class :
  (forall re_match (r : registry) (k : str) (cls : provider_class),
     NoDup (keys r) -> In (k, cls) r -> regex_match cls = false ->
     (forall key c, In (key, c) r -> regex_match c = true -> key <> k ->
                    re_match key k = Some false) ->
     fst (ProviderRegistry.get_provider re_match k r) = Ok cls)
  /\ Forall (fun e => regex_match (snd e) = false ->
                      fst (ProviderRegistry.get_provider re.is_match (fst e)
                             provider_registry) = Ok (snd e))
            provider_registry.
Proof.
  split.
  - intros re_match r k cls. apply own_key_resolves.
  - repeat constructor; intros _; vm_compute; reflexivity.
Qed.

(* ------------------------------------------------------------------ *)
(** ** More on the derived identifiers *)

(** X6. The VAT number is "IT" followed by the business identifier of
    the input without its first two characters, whatever these are: two
    inputs that differ only there get the same VAT number, and every
    input of at most two characters gets the VAT number of the empty
    string. *)
Theorem vatnumber_ignores_two_characters (s : str) (kw : kwargs) :
  exists digits,
    FiscalCodeBusinessProvider.alter_value (slice s (Some 2) None) kw = Ok digits
    /\ VatNumberProvider.alter_value s kw = Ok (lit "IT" ++ digits)
    /\ (forall a b : ascii,
          VatNumberProvider.alter_value (a :: b :: slice s (Some 2) None) kw
          = Ok (lit "IT" ++ digits))
    /\ (len s <= 2 ->
        VatNumberProvider.alter_value s kw = VatNumberProvider.alter_value [] kw).
Proof.
  exists (business_identifier (digest_pair (slice s (Some 2) None))).
  split; [apply business_of_digest|]. split; [apply vat_of_digest|]. split.
  - intros a b. rewrite vat_of_digest. do 3 f_equal.
    rewrite slice_from by lia. reflexivity.
  - intros Hs. rewrite !vat_of_digest. do 3 f_equal.
    rewrite !slice_from by lia. rewrite skipn_all2; [reflexivity|].
    unfold len in Hs. lia.
Qed.

(** The month letter and the day digits inside the person identifier. *)
Lemma person_identifier_items (p : nat -> Z) :
  str_getitem (person_identifier p) 8 = Ok (month_letter (p 8%nat))
  /\ str_getitem (person_identifier p) 9 = Ok (day_digit (p 9%nat))
  /\ str_getitem (person_identifier p) 10 = Ok (digit (p 10%nat)).
Proof.
  unfold person_identifier.
  destruct (month_letter_upper (p 8%nat)) as (m & Em & _). rewrite !Em.
  destruct (day_digit_decimal (p 9%nat)) as (dd & Ed & _). rewrite !Ed.
  repeat match goal with
         | |- context [digit (p ?k)] =>
             let c := fresh "c" in
             let E := fresh "E" in
             destruct (digit_decimal (p k)) as (c & E & _); rewrite !E; clear E
         | |- context [letter (p ?k)] =>
             let c := fresh "c" in
             let E := fresh "E" in
             destruct (letter_upper (p k)) as (c & E & _); rewrite !E; clear E
         end.
  repeat split; reflexivity.
Qed.

(** X7. In every person identifier the month letter is one of the
    twelve allowed letters and the first day digit is at most 7. *)
Theorem fiscal_code_month_and_day_ranges (s : str) (kw : kwargs) :
  exists out m d v,
    FiscalCodeProvider.alter_value s kw = Ok out
    /\ str_getitem out 8 = Ok m
    /\ contains FiscalCodeProvider.char_month m = true
    /\ str_getitem out 9 = Ok d
    /\ int_of_str d 10 = Ok v
    /\ 0 <= v <= 7.
Proof.
  destruct (person_identifier_items (digest_pair s)) as (Hm & Hd & _).
  exists (person_identifier (digest_pair s)),
         (month_letter (digest_pair s 8)), (day_digit (digest_pair s 9)),
         (if digest_pair s 9 mod 10 >? 7 then 1 else digest_pair s 9 mod 10).
  split; [apply fiscal_code_of_digest|].
  split; [exact Hm|]. split; [|split; [exact Hd|]].
  - change FiscalCodeProvider.char_month with month_letters. unfold month_letter.
    destruct (contains month_letters (letter (digest_pair s 8))) eqn:E;
      [exact E | reflexivity].
  - destruct (digit_decimal (digest_pair s 9)) as (c & _ & _ & Hv).
    pose proof (Z.mod_pos_bound (digest_pair s 9) 10 ltac:(lia)) as Hb.
    unfold day_digit.
    destruct (digest_pair s 9 mod 10 >? 7) eqn:E.
    + split; [reflexivity | lia].
    + split; [exact Hv|]. rewrite Z.gtb_ltb in E. apply Z.ltb_ge in E. lia.
Qed.

(** X8. The combined provider raises [IndexError] on the empty string
    and on it only: on every other input it returns a business
    identifier of 9 characters or a person identifier of 16. *)
Theorem fiscalcodevat_empty_input (s : str) (kw : kwargs) :
  (s = [] /\ FiscalCodeVatNumberProvider.alter_value s kw = Raise IndexError)
  \/ (s <> [] /\ exists out, FiscalCodeVatNumberProvider.alter_value s kw = Ok out
                             /\ (List.length out = 9%nat \/ List.length out = 16%nat)).
Proof.
  destruct s as [|c t]; [left; split; reflexivity|].
  right. split; [discriminate|].
  rewrite fiscalcodevat_dispatch.
  destruct (digit_char c).
  - exists (business_identifier (digest_pair (c :: t))).
    split; [apply business_of_digest|]. left. apply business_identifier_digits.
  - exists (person_identifier (digest_pair (c :: t))).
    split; [apply fiscal_code_of_digest|]. right. apply person_identifier_shape.
Qed.

(* ------------------------------------------------------------------ *)
(** ** More on [mask] and [partial_mask] *)

Lemma str_mul_single (c : ascii) (n : Z) : str_mul [c] n = repeat c (Z.to_nat n).
Proof.
  unfold str_mul. induction (Z.to_nat n) as [|k IH]; [reflexivity|].
  cbn [repeat concat app]. now rewrite IH.
Qed.

Lemma firstn_firstn_min {A : Type} (l : list A) (a : nat) :
  firstn a (firstn a l) = firstn a l.
Proof. rewrite firstn_firstn. now rewrite Nat.min_id. Qed.

(** X9. The mask of a value depends on its length only, so two values
    of the same length get the same mask; and with a sign of one
    character, masking a mask changes nothing. *)
Theorem mask_hides_content (s1 s2 : str) (kw : kwargs) :
  List.length s1 = List.length s2 ->
  MaskProvider.alter_value s1 kw = MaskProvider.alter_value s2 kw
  /\ forall c : ascii,
       str_or (kw_sign kw) MaskProvider.default_sign = [c] ->
       MaskProvider.alter_value (MaskProvider.alter_value s1 kw) kw
       = MaskProvider.alter_value s1 kw.
Proof.
  intros Hl. split.
  - rewrite !mask_general. now rewrite Hl.
  - intros c Hc. rewrite !mask_general, Hc.
    assert (H : forall k, List.length (concat (repeat [c] k)) = k).
    { induction k as [|k IH]; [reflexivity|].
      cbn [repeat concat app List.length]. now rewrite IH. }
    now rewrite H.
Qed.

Lemma mask_hides_content_example :
  MaskProvider.alter_value (lit "secret") (mkKwargs (Some (lit "*")) None None None None)
  = MaskProvider.alter_value (lit "public") (mkKwargs (Some (lit "*")) None None None None).
Proof.
  apply (mask_hides_content (lit "secret") (lit "public")
           (mkKwargs (Some (lit "*")) None None None None)).
  reflexivity.
Defined.

Lemma partial_mask_inside (s : str) (kw : kwargs) :
  let sign := str_or (kw_sign kw) PartialMaskProvider.default_sign in
  let l := int_or (kw_unmasked_left kw) PartialMaskProvider.default_unmasked_left in
  let r := int_or (kw_unmasked_right kw) PartialMaskProvider.default_unmasked_right in
  0 <= l -> 0 <= r -> l + r <= len s ->
  PartialMaskProvider.alter_value s kw
  = firstn (Z.to_nat l) s ++ str_mul sign (len s - l - r) ++ lastn (Z.to_nat r) s.
Proof.
  intros sign l r Hl Hr Hlen.
  assert (Hr0 : r <> 0) by (apply int_or_nonzero; discriminate).
  unfold PartialMaskProvider.alter_value. fold sign l r.
  rewrite slice_upto by exact Hl.
  rewrite slice_last by lia.
  now replace (len s - (l + r)) with (len s - l - r) by lia.
Qed.

(** X10. With a sign of one character and an input of at least
    [l + r] characters ([l], [r] the effective [unmasked_left] and
    [unmasked_right], not negative), [partial_mask] keeps the length of
    the input, and applying it to its own output changes nothing. *)
Theorem partial_mask_length_and_idempotence (s : str) (kw : kwargs) (c : ascii) :
  let l := int_or (kw_unmasked_left kw) PartialMaskProvider.default_unmasked_left in
  let r := int_or (kw_unmasked_right kw) PartialMaskProvider.default_unmasked_right in
  str_or (kw_sign kw) PartialMaskProvider.default_sign = [c] ->
  0 <= l -> 0 <= r -> l + r <= len s ->
  List.length (PartialMaskProvider.alter_value s kw) = List.length s
  /\ PartialMaskProvider.alter_value (PartialMaskProvider.alter_value s kw) kw
     = PartialMaskProvider.alter_value s kw.
Proof.
  intros l r Hc Hl Hr Hlen.
  pose proof (partial_mask_inside s kw Hl Hr Hlen) as E.
  cbv zeta in E. fold l r in E. rewrite Hc in E.
  rewrite str_mul_single in E.
  set (a := Z.to_nat l) in *. set (b := Z.to_nat r) in *.
  set (n := List.length s).
  assert (Hn : (a + b <= n)%nat) by (unfold len in Hlen; subst a b n; lia).
  replace (Z.to_nat (len s - l - r)) with (n - a - b)%nat in E
    by (unfold len; subst a b n; lia).
  assert (Hlen' : List.length (PartialMaskProvider.alter_value s kw) = n).
  { rewrite E, !length_app, repeat_length, length_firstn. unfold lastn.
    rewrite length_skipn. fold n. lia. }
  split; [exact Hlen'|].
  assert (Hlz : l + r <= len (PartialMaskProvider.alter_value s kw)).
  { unfold len in *. rewrite Hlen'. exact Hlen. }
  pose proof (partial_mask_inside (PartialMaskProvider.alter_value s kw) kw Hl Hr Hlz) as E2.
  cbv zeta in E2. fold l r in E2. rewrite Hc in E2.
  rewrite str_mul_single in E2. fold a b in E2.
  replace (Z.to_nat (len (PartialMaskProvider.alter_value s kw) - l - r))
    with (n - a - b)%nat in E2 by (unfold len; rewrite Hlen'; subst a b n; lia).
  rewrite E2. rewrite E at 3. f_equal; [|f_equal].
  - rewrite E. rewrite firstn_app, length_firstn.
    replace (a - Nat.min a (List.length s))%nat with 0%nat by (fold n; lia).
    cbn [firstn]. rewrite app_nil_r. apply firstn_firstn_min.
  - unfold lastn. rewrite Hlen'. fold n. rewrite E.
    rewrite app_assoc, skipn_app.
    rewrite length_app, length_firstn, repeat_length. fold n.
    replace (n - b - (Nat.min a n + (n - a - b)))%nat with 0%nat by lia.
    rewrite skipn_all2 by (rewrite length_app, length_firstn, repeat_length; fold n; lia).
    reflexivity.
Qed.

(* ------------------------------------------------------------------ *)
(** ** The providers that draw at random

    Each statement holds for every generator whose [_randbelow(n)]
    returns an integer of [0, n), from every state of it. *)

Lemma counting_randbelow_in_range : randbelow_in_range counting_randbelow.
Proof. intros n g Hn. cbn [counting_randbelow fst]. now apply Z.mod_pos_bound. Qed.

Lemma str_of_int_digit (k : Z) :
  0 <= k <= 9 -> exists c, str_of_int k = [c] /\ is_decimal_digit c = true.
Proof.
  intros Hk. destruct (digit_decimal k) as (c & Hc & Hd & _).
  unfold digit in Hc. rewrite Z.mod_small in Hc by lia. now exists c.
Qed.

Lemma matches_classes_app (ks1 ks2 : list char_class) (s1 s2 : str) :
  matches_classes ks1 s1 = true -> matches_classes ks2 s2 = true ->
  matches_classes (ks1 ++ ks2) (s1 ++ s2) = true.
Proof.
  revert s1. induction ks1 as [|k ks1 IH]; intros [|c s1] H1 H2;
    cbn [matches_classes app] in *; try discriminate; [exact H2|].
  apply andb_prop in H1. destruct H1 as [Hc H1]. rewrite Hc. now apply IH.
Qed.

Section RandomSource.

Variable rng : Type.
Variable randbelow : Z -> rng -> Z * rng.
Hypothesis randbelow_range : randbelow_in_range randbelow.

Lemma randint_range (a b : Z) (g : rng) :
  a <= b ->
  exists k g', random.randint rng randbelow a b g = (Ok k, g') /\ a <= k <= b.
Proof.
  intros Hab. unfold random.randint.
  destruct (Z.ltb_spec 0 (b + 1 - a)) as [Hw|Hw]; [|lia].
  pose proof (randbelow_range (b + 1 - a) g Hw) as Hr.
  destruct (randbelow (b + 1 - a) g) as [k g']. cbn [fst] in Hr.
  exists (a + k), g'. split; [reflexivity | lia].
Qed.

Lemma choice_member {A : Type} (seq : list A) (g : rng) :
  seq <> [] ->
  exists x g', random.choice rng randbelow seq g = (Ok x, g') /\ In x seq.
Proof.
  intros Hne. unfold random.choice.
  assert (Hl : 0 < len seq) by (destruct seq; [congruence | unfold len; simpl; lia]).
  destruct (Z.eqb_spec (len seq) 0) as [E|_]; [lia|].
  pose proof (randbelow_range (len seq) g Hl) as Hr.
  destruct (randbelow (len seq) g) as [k g']. cbn [fst] in Hr.
  unfold getitem. destruct (Z.ltb_spec k 0) as [|_]; [lia|].
  destruct (Z.ltb_spec k 0) as [|_]; [lia|].
  destruct (nth_error seq (Z.to_nat k)) as [x|] eqn:E.
  - exists x, g'. split; [reflexivity|]. eapply nth_error_In, E.
  - apply nth_error_None in E. unfold len in Hr. lia.
Qed.

(** Seven or nine digits drawn one after the other. *)
Lemma draws_digits (n : nat) (g : rng) :
  exists ds g',
    random.draws rng n
      (fun g => let '(k, g1) := random.randint rng randbelow 0 9 g in
                (bind k (fun k => Ok (str_of_int k)), g1)) g = (Ok ds, g')
    /\ List.length (concat ds) = n
    /\ matches_classes (repeat Digit n) (concat ds) = true.
Proof.
  revert g. induction n as [|n IH]; intros g.
  - exists [], g. repeat split.
  - cbn [random.draws].
    destruct (randint_range 0 9 g ltac:(lia)) as (k & g1 & -> & Hk).
    cbn [bind]. destruct (IH g1) as (ds & g2 & -> & Hl & Hm).
    destruct (str_of_int_digit k Hk) as (c & -> & Hc).
    exists ([c] :: ds), g2. repeat split.
    + cbn [concat app List.length]. now rewrite Hl.
    + cbn [concat app repeat matches_classes in_class]. now rewrite Hc, Hm.
Qed.

Lemma draws_upper_letters (n : nat) (g : rng) :
  exists cs g',
    random.draws rng n
      (fun g => let '(c, g') := random.choice rng randbelow ascii_letters g in
                (bind c (fun c => Ok (upper [c])), g')) g = (Ok cs, g')
    /\ matches_classes (repeat Upper n) (concat cs) = true.
Proof.
  revert g. induction n as [|n IH]; intros g.
  - exists [], g. repeat split.
  - cbn [random.draws].
    destruct (choice_member ascii_letters g ltac:(discriminate)) as (c & g1 & -> & Hc).
    cbn [bind]. destruct (IH g1) as (cs & g2 & -> & Hm).
    exists (upper [c] :: cs), g2. split; [reflexivity|].
    assert (Hu : exists u, upper [c] = [u] /\ is_upper u = true).
    { exists (hd c (upper [c])).
      repeat (destruct Hc as [<-|Hc]; [split; reflexivity|]). destruct Hc. }
    destruct Hu as (u & -> & Hu).
    cbn [concat app repeat matches_classes in_class]. now rewrite Hu, Hm.
Qed.

Lemma phone_number_shape (g : rng) :
  exists digits g',
    PhoneNumberItaProvider.alter_value rng randbelow g = (Ok (lit "+003" ++ digits), g')
    /\ List.length digits = 9%nat
    /\ matches_classes (repeat Digit 9) digits = true.
Proof.
  unfold PhoneNumberItaProvider.alter_value.
  destruct (draws_digits 9 g) as (ds & g' & -> & Hl & Hm).
  exists (concat ds), g'. cbn [bind]. rewrite join_empty. auto.
Qed.

Lemma id_card_shape (g : rng) :
  exists out g',
    RandomIDCardProvider.alter_value rng randbelow g = (Ok out, g')
    /\ matches_classes id_card_pattern out = true.
Proof.
  unfold RandomIDCardProvider.alter_value.
  destruct (draws_upper_letters 2 g) as (cs & g1 & -> & Hc).
  destruct (draws_digits 7 g1) as (ds & g2 & -> & _ & Hd).
  exists (concat cs ++ concat ds), g2. cbn [bind]. rewrite !join_empty.
  split; [reflexivity|]. now apply matches_classes_app.
Qed.

End RandomSource.

(** X11. Whatever the generator draws, [phonenumberita] returns "+003"
    followed by exactly nine decimal digits, thirteen characters in
    all, and raises nothing. *)
Theorem phone_number_format (rng : Type) (randbelow : Z -> rng -> Z * rng) (g : rng) :
  randbelow_in_range randbelow ->
  exists digits g',
    PhoneNumberItaProvider.alter_value rng randbelow g = (Ok (lit "+003" ++ digits), g')
    /\ List.length digits = 9%nat
    /\ matches_classes (repeat Digit 9) digits = true.
Proof. intros H. now apply phone_number_shape. Qed.

Lemma phone_number_format_example :
  exists digits g',
    PhoneNumberItaProvider.alter_value Z counting_randbelow 7 = (Ok (lit "+003" ++ digits), g')
    /\ List.length digits = 9%nat
    /\ matches_classes (repeat Digit 9) digits = true.
Proof.
  exact (phone_number_format Z counting_randbelow 7 counting_randbelow_in_range).
Defined.

(** X12. Whatever the generator draws, [randomidcard] returns two
    uppercase letters followed by seven decimal digits, and raises
    nothing. *)
Theorem id_card_format (rng : Type) (randbelow : Z -> rng -> Z * rng) (g : rng) :
  randbelow_in_range randbelow ->
  exists out g',
    RandomIDCardProvider.alter_value rng randbelow g = (Ok out, g')
    /\ matches_classes id_card_pattern out = true
    /\ List.length out = 9%nat.
Proof.
  intros H. destruct (id_card_shape rng randbelow H g) as (out & g' & E & Hm).
  exists out, g'. split; [exact E|]. split; [exact Hm|].
  clear E. unfold id_card_pattern in Hm. cbn [repeat app] in Hm.
  do 9 (destruct out as [|? out]; [discriminate Hm|];
        cbn [matches_classes] in Hm; apply andb_prop in Hm; destruct Hm as [_ Hm]).
  destruct out; [reflexivity | discriminate Hm].
Qed.

Lemma id_card_format_example :
  exists out g',
    RandomIDCardProvider.alter_value Z counting_randbelow 30 = (Ok out, g')
    /\ matches_classes id_card_pattern out = true
    /\ List.length out = 9%nat.
Proof.
  exact (id_card_format Z counting_randbelow 30 counting_randbelow_in_range).
Defined.

(** X13. [choice] returns one of the configured [values], whatever the
    generator draws; an empty list raises [IndexError] and a missing
    [values] argument raises [TypeError], both without a draw. *)
Theorem choice_returns_a_value
        (rng : Type) (randbelow : Z -> rng -> Z * rng) (A : Type) (g : rng) :
  randbelow_in_range randbelow ->
  (forall values : list A,
     values <> [] ->
     exists x g', ChoiceProvider.alter_value rng randbelow (Some values) g = (Return x, g')
                  /\ In x values)
  /\ ChoiceProvider.alter_value rng randbelow (Some (@nil A)) g
     = (Throw (Builtin IndexError), g)
  /\ ChoiceProvider.alter_value rng randbelow (@None (list A)) g = (Throw TypeError, g).
Proof.
  intros H. split; [|split; reflexivity].
  intros values Hne. unfold ChoiceProvider.alter_value.
  destruct (choice_member rng randbelow H values g Hne) as (x & g' & -> & Hx).
  now exists x, g'.
Qed.

Lemma choice_returns_a_value_example :
  exists x g',
    ChoiceProvider.alter_value Z counting_randbelow (Some [lit "a"; lit "b"; lit "c"]) 4
    = (Return x, g')
    /\ In x [lit "a"; lit "b"; lit "c"].
Proof.
  apply (choice_returns_a_value Z counting_randbelow str 4 counting_randbelow_in_range).
  discriminate.
Defined.

(* ------------------------------------------------------------------ *)
(** ** [FakeProvider]: the name of the method *)

Lemma split_from_exhausted (sep cur s : str) :
  split_from sep 0 0 cur s = [rev cur ++ s].
Proof.
  revert cur. induction s as [|c t IH]; intros cur.
  - cbn [split_from]. now rewrite app_nil_r.
  - cbn [split_from Z.eqb negb andb]. rewrite IH. cbn [rev].
    now rewrite <- app_assoc.
Qed.

Lemma split_from_no_dot (m : Z) (cur s : str) :
  ~ In "."%char s ->
  split_from (lit ".") 0 m cur s = [rev cur ++ s].
Proof.
  revert cur. induction s as [|c t IH]; intros cur Hn.
  - cbn [split_from]. now rewrite app_nil_r.
  - cbn [split_from]. change (lit ".") with ["."%char] in *. cbn [starts_with].
    destruct (Ascii.eqb_spec "."%char c) as [<-|Hc]; [exfalso; apply Hn; now left|].
    rewrite andb_false_r. cbn [andb].
    rewrite IH by (intros H; apply Hn; now right).
    cbn [rev]. now rewrite <- app_assoc.
Qed.

Lemma split_from_first_dot (m : Z) (cur a b : str) :
  m <> 0 -> ~ In "."%char a ->
  split_from (lit ".") 0 m cur (a ++ "."%char :: b)
  = (rev cur ++ a) :: split_from (lit ".") 0 (m - 1) [] b.
Proof.
  intros Hm. revert cur. induction a as [|c t IH]; intros cur Hn.
  - cbn [app split_from]. change (lit ".") with ["."%char]. cbn [starts_with].
    rewrite Ascii.eqb_refl. apply Z.eqb_neq in Hm. rewrite Hm.
    cbn [negb andb List.length Nat.sub]. now rewrite app_nil_r.
  - cbn [app split_from]. change (lit ".") with ["."%char] in *. cbn [starts_with].
    destruct (Ascii.eqb_spec "."%char c) as [<-|Hc]; [exfalso; apply Hn; now left|].
    rewrite andb_false_r. cbn [andb].
    rewrite IH by (intros H; apply Hn; now right).
    cbn [rev]. now rewrite <- app_assoc.
Qed.

Lemma prefix_in_step (r : re.regex) (a : ascii) (t : str) :
  re.prefix_in (re.deriv a r) t = true -> re.prefix_in r (a :: t) = true.
Proof. intros H. cbn [re.prefix_in]. rewrite H. apply orb_true_r. Qed.

Lemma fake_pattern_matches (c : ascii) (rest : str) :
  c <> ascii_of_nat 10 ->
  re.is_match (lit "fake.+") (lit "fake" ++ c :: rest) = Some true.
Proof.
  intros Hc.
  assert (H : re.is_match (lit "fake.+") ((lit "fake" ++ [c]) ++ rest) = Some true).
  { unfold re.is_match.
    change (re.parse (lit "fake.+"))
      with (Some (re.Cat (re.Chr "f") (re.Cat (re.Chr "a") (re.Cat (re.Chr "k")
              (re.Cat (re.Chr "e") (re.Cat (re.Cat re.Dot (re.Star re.Dot)) re.Eps)))))).
    cbn [option_map]. f_equal. apply prefix_in_app.
    change (lit "fake" ++ [c]) with ["f"; "a"; "k"; "e"; c]%char.
    do 4 apply prefix_in_step.
    match goal with
    | |- re.prefix_in ?r _ = true =>
        let r' := eval vm_compute in r in change r with r'
    end.
    cbn -[Ascii.eqb].
    destruct (Ascii.eqb c _) eqn:E; [|reflexivity].
    apply Ascii.eqb_eq in E. exfalso. apply Hc. exact E. }
  now rewrite <- app_assoc in H.
Qed.

Lemma fake_provider_method_name_parts (X : externals) (a b : str)
      (k : option (func_kwargs X)) (l : option (option str)) :
  ~ In "."%char a ->
  FakeProvider.func_name X (FakeProvider.mkFakeKwargs X (Some (a ++ "."%char :: b)) k l)
  = Return b
  /\ FakeProvider.func_name X (FakeProvider.mkFakeKwargs X (Some a) k l)
     = Throw (Builtin IndexError).
Proof.
  intros Hn. unfold FakeProvider.func_name, split.
  cbn [FakeProvider.name_key lit list_ascii_of_string bind].
  change [Ascii.Ascii false true true true false true false false] with (lit ".").
  rewrite split_from_first_dot by (trivial; discriminate).
  change (1 - 1) with 0. rewrite split_from_exhausted.
  now rewrite split_from_no_dot.
Qed.

(** X14. The method called by [FakeProvider] is named by what follows
    the first dot of ['name'], further dots included; a name without a
    dot raises [IndexError] and a missing name [KeyError].  The pattern
    ["fake.+"] accepts such names: an identifier made of "fake" and
    more characters, none of them a dot, resolves to [FakeProvider],
    whose [alter_value] then raises [IndexError]. *)
Theorem fake_provider_method_name (X : externals) :
  (forall (a b : str) k l,
     ~ In "."%char a ->
     FakeProvider.func_name X (FakeProvider.mkFakeKwargs X (Some (a ++ "."%char :: b)) k l)
     = Return b)
  /\ (forall (name : str) k l,
        ~ In "."%char name ->
        FakeProvider.func_name X (FakeProvider.mkFakeKwargs X (Some name) k l)
        = Throw (Builtin IndexError))
  /\ (forall k l,
        FakeProvider.func_name X (FakeProvider.mkFakeKwargs X None k l)
        = Throw (KeyError (lit "name")))
  /\ (forall (c : ascii) (rest : str) k l schema st w,
        c <> ascii_of_nat 10 -> ~ In "."%char (c :: rest) ->
        fst (ProviderRegistry.get_provider re.is_match (lit "fake" ++ c :: rest)
               provider_registry) = Ok FakeProvider
        /\ FakeProvider.alter_value X
             (FakeProvider.mkFakeKwargs X (Some (lit "fake" ++ c :: rest)) k l) schema st w
           = (Throw (Builtin IndexError), st, w)).
Proof.
  assert (Hnodot : forall name k l,
             ~ In "."%char name ->
             FakeProvider.func_name X (FakeProvider.mkFakeKwargs X (Some name) k l)
             = Throw (Builtin IndexError)).
  { intros name k l Hn. unfold FakeProvider.func_name, split.
    cbn [FakeProvider.name_key lit list_ascii_of_string bind].
    change [Ascii.Ascii false true true true false true false false] with (lit ".").
    now rewrite split_from_no_dot. }
  split; [|split; [exact Hnodot|split; [reflexivity|]]].
  - intros a b k l Hn. unfold FakeProvider.func_name, split.
    cbn [FakeProvider.name_key lit list_ascii_of_string bind].
    change [Ascii.Ascii false true true true false true false false] with (lit ".").
    rewrite split_from_first_dot by (trivial; discriminate).
    change (1 - 1) with 0. now rewrite split_from_exhausted.
  - intros c rest k l schema st w Hc Hn. split.
    + cbn [ProviderRegistry.get_provider fst]. apply find_provider_ok.
      exists [(lit "choice", ChoiceProvider); (lit "clear", ClearProvider)],
             (lit "fake.+"),
             (skipn 3 provider_registry).
      split; [reflexivity|]. split.
      * cbn [ProviderRegistry.entry_matches FakeProvider regex_match].
        now rewrite fake_pattern_matches.
      * repeat constructor;
          cbn [ProviderRegistry.entry_matches ChoiceProvider ClearProvider regex_match];
          f_equal; apply str_eqb_neq; discriminate.
    + unfold FakeProvider.alter_value. rewrite Hnodot; [reflexivity|].
      intros H. apply in_app_or in H. destruct H as [H|H]; [|now apply Hn].
      repeat (destruct H as [H|H]; [discriminate H|]). destruct H.
Qed.

(* ------------------------------------------------------------------ *)
(** ** [FakerInitializer]: what is read and built once *)

Section FakerFacts.

Variable X : externals.

Lemma options_cached (schema schema' : schema_dict) (self : FakerInitializer.t X) :
  FakerInitializer.options X schema'
    (snd (FakerInitializer.options X schema self))
  = FakerInitializer.options X schema self.
Proof.
  unfold FakerInitializer.options.
  destruct (FakerInitializer._options X self) as [o|] eqn:E.
  - cbn [snd]. now rewrite E.
  - reflexivity.
Qed.

Lemma faker_cached (schema schema' : schema_dict) (self self' : FakerInitializer.t X)
      (f : proxy X) :
  FakerInitializer.faker X schema self = (Return f, self') ->
  FakerInitializer.faker X schema' self' = (Return f, self').
Proof.
  unfold FakerInitializer.faker.
  destruct (FakerInitializer._faker X self) as [f0|] eqn:E.
  - intros [= <- <-]. now rewrite E.
  - destruct (FakerInitializer.options X schema self) as [o st].
    destruct (Faker X (locales_key o)) as [f1|e]; [|discriminate].
    intros [= <- <-]. reflexivity.
Qed.

Lemma faker_failure_not_cached (schema : schema_dict) (self self' : FakerInitializer.t X)
      (e : error) :
  FakerInitializer.faker X schema self = (Throw e, self') ->
  FakerInitializer._faker X self' = None.
Proof.
  unfold FakerInitializer.faker.
  destruct (FakerInitializer._faker X self) as [f0|] eqn:E; [discriminate|].
  unfold FakerInitializer.options.
  destruct (FakerInitializer._options X self) as [o|];
    destruct (Faker X (locales_key _)) as [f1|e1]; try discriminate;
    intros [= <- <-]; cbn [FakerInitializer._faker]; exact E.
Qed.

End FakerFacts.

(** X15. The options and the Faker instance are read and built at the
    first access and kept: once [faker] has returned an instance, every
    later access returns that instance and leaves the initializer as it
    is, whatever [config.schema] has become, and so does [options]
    after its first access.  An access to [faker] that raised has kept
    no instance. *)
Theorem faker_initializer_caches (X : externals) (schema schema' : schema_dict)
        (self self' : FakerInitializer.t X) (f : proxy X) :
  FakerInitializer.faker X schema self = (Return f, self') ->
  FakerInitializer.faker X schema' self' = (Return f, self')
  /\ FakerInitializer.options X schema' (snd (FakerInitializer.options X schema self))
     = FakerInitializer.options X schema self
  /\ (forall e st, FakerInitializer.faker X schema' self = (Throw e, st) ->
                   FakerInitializer._faker X st = None).
Proof.
  intros H. split; [now apply (faker_cached X schema schema' self)|]. split.
  - apply options_cached.
  - intros e st. apply faker_failure_not_cached.
Qed.

Lemma faker_initializer_caches_example :
  FakerInitializer.faker example_externals (mkSchema None)
    (snd (FakerInitializer.faker example_externals example_schema
            (FakerInitializer.init example_externals)))
  = (Return [lit "it_IT"; lit "de_DE"],
     FakerInitializer.mk example_externals
       (Some [lit "it_IT"; lit "de_DE"])
       (Some (mkFakerOptions (Some (lit "it_IT")) (Some [lit "it_IT"; lit "de_DE"])))).
Proof.
  apply (faker_initializer_caches example_externals example_schema (mkSchema None)
           (FakerInitializer.init example_externals)).
  reflexivity.
Defined.

(* ------------------------------------------------------------------ *)
(** ** [FakeProvider]: the locale *)

(** X16. From a fresh initializer whose Faker instance [f] builds,
    [FakeProvider.alter_value] calls the method on the generator of the
    locale given by the ['locale'] argument if the key is present, by
    the configured [default_locale] if it is absent; a present but
    empty or [None] locale selects the unlocalized [f] even when a
    default locale is configured; a locale that [f] does not know
    raises [InvalidProviderArgument], and a method that the generator
    does not have raises it too, in both cases without a call. *)
Theorem fake_provider_locale
        (X : externals) (o : faker_options) (f : proxy X) (a path : str)
        (k : option (func_kwargs X)) (l : option (option str)) (w : world X) :
  let schema := mkSchema (Some (mkOptions (Some o))) in
  let kw := FakeProvider.mkFakeKwargs X (Some (a ++ "."%char :: path)) k l in
  let st := FakerInitializer.mk X (Some f) (Some o) in
  let args := match k with Some k => k | None => empty_kwargs X end in
  let locale := match l with Some x => x | None => default_locale_key o end in
  let run g := match attrgetter X path g with
               | inl m => let '(v, w') := call X m args w in (v, st, w')
               | inr msg => (Throw (InvalidProviderArgument msg), st, w)
               end in
  ~ In "."%char a -> Faker X (locales_key o) = Return f ->
  FakeProvider.alter_value X kw schema (FakerInitializer.init X) w
  = match locale with
    | Some (c :: t) =>
        match proxy_getitem X f (c :: t) with
        | Some g => run g
        | None => (Throw (InvalidProviderArgument
                            (FakerInitializer.unknown_locale_msg (c :: t))), st, w)
        end
    | _ => run (proxy_generator X f)
    end.
Proof.
  intros schema kw st args locale run Ha Hf.
  destruct (fake_provider_method_name_parts X a path k l Ha) as [Hn _].
  unfold FakeProvider.alter_value. fold kw in Hn. rewrite Hn.
  cbn [FakeProvider.kwargs_key FakeProvider.locale_key kw]. fold args.
  cbn [FakerInitializer.default_locale FakerInitializer.options FakerInitializer.init
       FakerInitializer._options FakerInitializer._faker schema options_key faker_key].
  fold locale.
  destruct locale as [[|c t]|];
    unfold FakerInitializer.get_locale_generator, FakerInitializer.faker,
      FakerInitializer.options;
    cbn [FakerInitializer._options FakerInitializer._faker];
    rewrite Hf; fold st; try reflexivity.
  destruct (proxy_getitem X f (c :: t)); reflexivity.
Qed.

Lemma fake_provider_locale_example :
  FakeProvider.alter_value example_externals
    (FakeProvider.mkFakeKwargs example_externals (Some (lit "fake.name")) None (Some None))
    example_schema (FakerInitializer.init example_externals) 0
  = (Return (lit "Jane Doe"),
     FakerInitializer.mk example_externals
       (Some [lit "it_IT"; lit "de_DE"])
       (Some (mkFakerOptions (Some (lit "it_IT")) (Some [lit "it_IT"; lit "de_DE"]))),
     1).
Proof.
  pose proof (fake_provider_locale example_externals
                (mkFakerOptions (Some (lit "it_IT")) (Some [lit "it_IT"; lit "de_DE"]))
                [lit "it_IT"; lit "de_DE"] (lit "fake") (lit "name") None (Some None) 0) as H.
  cbv zeta in H. apply H; [|reflexivity].
  intros Hin. repeat (destruct Hin as [Hin|Hin]; [discriminate Hin|]). destruct Hin.
Defined.

(* ------------------------------------------------------------------ *)
(** ** [SameYearProvider] *)

Lemma isleap_days (y y' m : Z) :
  datetime.isleap y = false ->
  datetime.days_in_month y m <= datetime.days_in_month y' m.
Proof.
  intros Hy. unfold datetime.days_in_month. rewrite Hy.
  destruct (m =? 2); [destruct (datetime.isleap y'); lia|].
  destruct ((m =? 4) || (m =? 6) || (m =? 9) || (m =? 11)); lia.
Qed.

Lemma days_in_month_min (y m : Z) : 28 <= datetime.days_in_month y m.
Proof.
  unfold datetime.days_in_month.
  destruct (m =? 2); [destruct (datetime.isleap y); lia|].
  destruct ((m =? 4) || (m =? 6) || (m =? 9) || (m =? 11)); lia.
Qed.

Lemma valid_fields (d : datetime.date) :
  datetime.valid d = true <->
  1 <= datetime.year d <= 9999 /\ 1 <= datetime.month d <= 12
  /\ 1 <= datetime.day d <= datetime.days_in_month (datetime.year d) (datetime.month d).
Proof.
  unfold datetime.valid, datetime.MINYEAR, datetime.MAXYEAR.
  rewrite !andb_true_iff, !Z.leb_le. tauto.
Qed.

(** A valid date of a common year, or one whose day is at most 25,
    stays a date when its year is replaced. *)
Lemma replace_year_ok (b : datetime.date) (y : Z) :
  datetime.valid b = true -> 1 <= y <= 9999 ->
  datetime.isleap (datetime.year b) = false \/ datetime.day b <= 25 ->
  datetime.replace_year b y = Ok (datetime.mkDate y (datetime.month b) (datetime.day b)).
Proof.
  intros Hb Hy Hc. unfold datetime.replace_year.
  assert (Hv : datetime.valid (datetime.mkDate y (datetime.month b) (datetime.day b)) = true).
  { apply valid_fields in Hb. apply valid_fields. cbn [datetime.year datetime.month datetime.day].
    destruct Hb as (_ & Hm & Hd). repeat split; try lia.
    destruct Hc as [Hc|Hc].
    - pose proof (isleap_days (datetime.year b) y (datetime.month b) Hc). lia.
    - pose proof (days_in_month_min y (datetime.month b)). lia. }
  now rewrite Hv.
Qed.

Lemma replace_day_ok (b : datetime.date) (n : Z) :
  datetime.valid b = true -> 1 <= n <= 25 ->
  datetime.replace_day b n = Ok (datetime.mkDate (datetime.year b) (datetime.month b) n).
Proof.
  intros Hb Hn. unfold datetime.replace_day.
  assert (Hv : datetime.valid (datetime.mkDate (datetime.year b) (datetime.month b) n) = true).
  { apply valid_fields in Hb. apply valid_fields. cbn [datetime.year datetime.month datetime.day].
    pose proof (days_in_month_min (datetime.year b) (datetime.month b)). lia. }
  now rewrite Hv.
Qed.

(** X17. When the Faker instance is there, [date_of_birth] returns a
    date and the generator draws in range, [sameyear] on a date, or on
    a non-empty string whose year parses, raises nothing and returns a
    date with the year of the original value and the month of the date
    of birth; the day is that of the date of birth when its year is a
    common year, and a day between 1 and 25 when it is a leap year.  On
    [None] and on the empty string it returns [None] without an access
    to Faker or a draw. *)
Theorem sameyear_keeps_the_year
        (X : externals) (schema : schema_dict) (self self' : FakerInitializer.t X)
        (f : proxy X) (w : world X) (original_value : column_value) (y : Z) :
  let birth := fst (date_of_birth X f w) in
  FakerInitializer.faker X schema self = (Return f, self') ->
  datetime.valid birth = true ->
  randbelow_in_range (random_randbelow X) ->
  1 <= y <= 9999 ->
  (exists d, original_value = CDate d /\ datetime.year d = y)
  \/ (exists c s, original_value = CStr (c :: s) /\ strptime_year X (c :: s) = Ok y) ->
  (exists d' w',
     SameYearProvider.alter_value X original_value schema self w
     = (Return (Some d'), self', w')
     /\ datetime.valid d' = true
     /\ datetime.year d' = y
     /\ datetime.month d' = datetime.month birth
     /\ (if datetime.isleap (datetime.year birth)
         then 1 <= datetime.day d' <= 25
         else datetime.day d' = datetime.day birth))
  /\ SameYearProvider.alter_value X CNone schema self w = (Return None, self, w)
  /\ SameYearProvider.alter_value X (CStr []) schema self w = (Return None, self, w).
Proof.
  intros birth Hf Hb Hr Hy Ho. split; [|split; reflexivity].
  assert (E : SameYearProvider.alter_value X original_value schema self w
              = let '(birth_date, w) := date_of_birth X f w in
                let '(birth_date, w) :=
                  if datetime.isleap (datetime.year birth_date) then
                    let '(n, w) := random.randint (world X) (random_randbelow X) 1 25 w in
                    (bind n (datetime.replace_day birth_date), w)
                  else (Ok birth_date, w) in
                match birth_date with
                | Raise e => (Throw (Builtin e), self', w)
                | Ok birth_date =>
                    (lift (bind (datetime.replace_year birth_date y)
                                (fun d => Ok (Some d))), self', w)
                end).
  { unfold SameYearProvider.alter_value.
    destruct Ho as [(d & -> & Hd)|(c & s & -> & Hs)]; rewrite Hf.
    - rewrite Hd. reflexivity.
    - rewrite Hs. reflexivity. }
  rewrite E. clear E. unfold birth in *. clear birth.
  destruct (date_of_birth X f w) as [b w1]. cbn [fst] in *.
  destruct (datetime.isleap (datetime.year b)) eqn:El.
  - destruct (randint_range (world X) (random_randbelow X) Hr 1 25 w1 ltac:(lia))
      as (n & w2 & -> & Hn).
    cbn [bind]. rewrite (replace_day_ok b n Hb Hn).
    set (b' := datetime.mkDate (datetime.year b) (datetime.month b) n).
    assert (Hb' : datetime.valid b' = true).
    { apply valid_fields in Hb. apply valid_fields.
      cbn [b' datetime.year datetime.month datetime.day].
      pose proof (days_in_month_min (datetime.year b) (datetime.month b)). lia. }
    rewrite (replace_year_ok b' y Hb' Hy) by (right; cbn [b' datetime.day]; lia).
    eexists. exists w2. split; [reflexivity|].
    cbn [b' datetime.year datetime.month datetime.day].
    split; [|repeat split; lia].
    apply valid_fields. cbn [datetime.year datetime.month datetime.day].
    apply valid_fields in Hb.
    pose proof (days_in_month_min y (datetime.month b)). lia.
  - rewrite replace_year_ok by (auto; lia).
    eexists. exists w1. split; [reflexivity|].
    split; [|repeat split].
    apply valid_fields. cbn [datetime.year datetime.month datetime.day].
    apply valid_fields in Hb.
    pose proof (isleap_days (datetime.year b) y (datetime.month b) El). lia.
Qed.

Lemma sameyear_keeps_the_year_example :
  exists d' w',
    SameYearProvider.alter_value example_externals
      (CDate (datetime.mkDate 2001 5 10)) example_schema
      (FakerInitializer.init example_externals) 0
    = (Return (Some d'),
       FakerInitializer.mk example_externals
         (Some [lit "it_IT"; lit "de_DE"])
         (Some (mkFakerOptions (Some (lit "it_IT")) (Some [lit "it_IT"; lit "de_DE"]))),
       w')
    /\ datetime.valid d' = true
    /\ datetime.year d' = 2001
    /\ datetime.month d' = 2
    /\ 1 <= datetime.day d' <= 25.
Proof.
  refine (proj1 (sameyear_keeps_the_year example_externals example_schema
                   (FakerInitializer.init example_externals) _
                   [lit "it_IT"; lit "de_DE"] 0
                   (CDate (datetime.mkDate 2001 5 10)) 2001
                   eq_refl eq_refl counting_randbelow_in_range _ _)).
  - lia.
  - left. eexists. split; reflexivity.
Defined.

(* ------------------------------------------------------------------ *)
(** ** [cli.main] *)

Section CliFacts.

Variable DATABASE_ARGS : list str.
Variable doc : provider_class -> str.
Variable providers : registry.

Local Abbreviation calls_of := (fun args => fst (cli.main DATABASE_ARGS doc providers args)).

Lemma starts_with_app (key tail : str) : starts_with key (key ++ tail) = true.
Proof.
  induction key as [|c key IH]; [reflexivity|].
  cbn [app starts_with]. rewrite Ascii.eqb_refl. exact IH.
Qed.

Lemma in_firstn {A : Type} (x : A) (n : nat) (l : list A) :
  In x (firstn n l) -> In x l.
Proof. rewrite <- (firstn_skipn n l) at 2. intros H. apply in_or_app. now left. Qed.

Lemma dry_run_no_commit (args : cli.Namespace) :
  cli.dry_run args = true -> ~ In cli.connection_commit (calls_of args).
Proof.
  intros Hd. unfold cli.main. rewrite Hd.
  destruct (cli.list_providers args); cbn [fst negb].
  - intros [H|H]; [discriminate|].
    unfold cli.list_provider_classes in H. destruct H as [H|H]; [discriminate|].
    apply in_map_iff in H. destruct H as (e & He & _). discriminate.
  - rewrite !in_app_iff.
    destruct (cli.init_sql args) as [[|c sql]|];
      destruct (cli.dump_file args) as [[|c' file]|];
      cbn [In]; intuition discriminate.
Qed.

Lemma commit_between (args : cli.Namespace) :
  cli.dry_run args = false -> cli.list_providers args = false ->
  exists before after,
    calls_of args
    = before ++ [cli.anonymize_tables (cli.verbose args) false;
                 cli.connection_commit; cli.connection_close] ++ after
    /\ ~ In cli.connection_commit before /\ ~ In cli.connection_commit after.
Proof.
  intros Hd Hl. unfold cli.main. rewrite Hd, Hl. cbn [fst negb].
  match goal with
  | |- exists before after,
         ?a ++ ?init ++ [?t; ?tr; ?an] ++ [?co] ++ [?cl; ?t2; ?lg] ++ ?dump = _ /\ _ =>
      exists (a ++ init ++ [t; tr]), ([t2; lg] ++ dump)
  end.
  split; [now rewrite <- !app_assoc|].
  rewrite !in_app_iff.
  destruct (cli.init_sql args) as [[|c sql]|];
    destruct (cli.dump_file args) as [[|c' file]|];
    cbn [In]; intuition discriminate.
Qed.

Lemma list_providers_prints (args : cli.Namespace) :
  cli.list_providers args = true ->
  snd (cli.main DATABASE_ARGS doc providers args) = Some 0
  /\ exists level lines,
       calls_of args = cli.logging_basicConfig level :: map cli.print lines
       /\ List.length lines = S (List.length providers)
       /\ forall i key cls,
            nth_error providers i = Some (key, cls) ->
            exists line, nth_error lines (S i) = Some line
                         /\ starts_with key line = true
                         /\ 10 <= len line.
Proof.
  intros Hl. unfold cli.main. rewrite Hl. cbn [fst snd]. split; [reflexivity|].
  eexists. unfold cli.list_provider_classes.
  exists ((lit "Available provider classes:" ++ [ascii_of_nat 10])
          :: map (fun entry => ljust (fst entry) 10 ++ lit " " ++ doc (snd entry))
                 providers).
  split; [cbn [map]; now rewrite map_map|].
  split; [cbn [List.length]; now rewrite length_map|].
  intros i key cls Hi. cbn [nth_error].
  rewrite nth_error_map, Hi. cbn [option_map fst snd].
  eexists. split; [reflexivity|]. split.
  - unfold ljust. rewrite <- app_assoc. apply starts_with_app.
  - unfold ljust, len. rewrite !length_app, repeat_length. unfold len. lia.
Qed.

Lemma dump_is_last (args : cli.Namespace) (c : ascii) (file : str) :
  cli.list_providers args = false -> cli.dump_file args = Some (c :: file) ->
  exists before,
    calls_of args
    = before ++ [cli.create_database_dump (c :: file)
                   (cli.get_pg_args DATABASE_ARGS args)]
    /\ In (cli.get_connection (cli.get_pg_args DATABASE_ARGS args)) before
    /\ In cli.connection_close before
    /\ (In cli.connection_commit before <-> cli.dry_run args = false)
    /\ Forall (fun c => ~ is_dump c) before.
Proof.
  intros Hl Hd. unfold cli.main. rewrite Hl, Hd. cbn [fst].
  match goal with
  | |- exists before, ?a ++ ?b ++ ?c ++ ?d ++ ?e ++ [?x] = _ /\ _ =>
      exists (a ++ b ++ c ++ d ++ e)
  end.
  split; [now rewrite <- !app_assoc|].
  rewrite !in_app_iff, !Forall_app.
  assert (Hn : forall x, (forall f p, x <> cli.create_database_dump f p) -> ~ is_dump x).
  { intros x Hx (f & p & ->). now apply (Hx f p). }
  split; [cbn [In]; tauto|]. split; [cbn [In]; tauto|]. split.
  - destruct (cli.dry_run args), (cli.init_sql args) as [[|c0 sql]|];
      cbn [negb In]; intuition discriminate.
  - destruct (cli.dry_run args), (cli.init_sql args) as [[|c0 sql]|];
      cbn [negb]; repeat split; repeat constructor; apply Hn; discriminate.
Qed.

Lemma no_dump_without_file (args : cli.Namespace) :
  cli.list_providers args = true \/ cli.dump_file args = None
  \/ cli.dump_file args = Some [] ->
  Forall (fun c => ~ is_dump c) (calls_of args).
Proof.
  assert (Hn : forall x, (forall f p, x <> cli.create_database_dump f p) -> ~ is_dump x).
  { intros x Hx (f & p & ->). now apply (Hx f p). }
  intros H. unfold cli.main.
  destruct (cli.list_providers args) eqn:Hl; cbn [fst].
  - constructor; [apply Hn; discriminate|].
    unfold cli.list_provider_classes. constructor; [apply Hn; discriminate|].
    apply Forall_forall. intros x Hx. apply in_map_iff in Hx.
    destruct Hx as (e & <- & _). apply Hn. discriminate.
  - destruct H as [H|[H|H]]; [discriminate| |]; rewrite H;
      rewrite !Forall_app;
      destruct (cli.dry_run args), (cli.init_sql args) as [[|c0 sql]|];
      cbn [negb]; repeat split; repeat constructor; apply Hn; discriminate.
Qed.

End CliFacts.

(** X18. A dry run never commits: with [--dry-run], no run of [main],
    however far it gets, calls [connection.commit()].  Without it (and
    without [--list-providers]) the commit is made once, right after
    [anonymize_tables] and right before the connection is closed. *)
Theorem dry_run_never_commits
        (DATABASE_ARGS : list str) (doc : provider_class -> str) (providers : registry)
        (args : cli.Namespace) :
  let calls := fst (cli.main DATABASE_ARGS doc providers args) in
  if cli.dry_run args then
    forall n, Forall (fun c => c <> cli.connection_commit) (firstn n calls)
  else
    cli.list_providers args = true
    \/ exists before after,
         calls = before ++ [cli.anonymize_tables (cli.verbose args) false;
                            cli.connection_commit; cli.connection_close] ++ after
         /\ Forall (fun c => c <> cli.connection_commit) before
         /\ Forall (fun c => c <> cli.connection_commit) after.
Proof.
  intros calls. destruct (cli.dry_run args) eqn:Hd.
  - intros n. apply Forall_forall. intros c Hc ->.
    apply in_firstn in Hc.
    now apply (dry_run_no_commit DATABASE_ARGS doc providers args Hd).
  - destruct (cli.list_providers args) eqn:Hl; [now left|right].
    destruct (commit_between DATABASE_ARGS doc providers args Hd Hl)
      as (before & after & E & Hb & Ha).
    exists before, after. split; [exact E|].
    split; apply Forall_forall; intros c Hc ->; auto.
Qed.

(** X19. With [--list-providers], [main] returns 0 after it has
    configured logging and printed a heading and one line per
    registered provider, in registration order, each line starting with
    the whole key of the provider and at least ten characters long; it
    makes no other call, so none on the database. *)
Theorem list_providers_only_prints
        (DATABASE_ARGS : list str) (doc : provider_class -> str) (providers : registry)
        (args : cli.Namespace) :
  cli.list_providers args = true ->
  snd (cli.main DATABASE_ARGS doc providers args) = Some 0
  /\ exists level lines,
       fst (cli.main DATABASE_ARGS doc providers args)
       = cli.logging_basicConfig level :: map cli.print lines
       /\ List.length lines = S (List.length providers)
       /\ forall i key cls,
            nth_error providers i = Some (key, cls) ->
            exists line, nth_error lines (S i) = Some line
                         /\ starts_with key line = true
                         /\ 10 <= len line.
Proof. apply list_providers_prints. Qed.

Lemma list_providers_only_prints_example :
  snd (cli.main example_database_args (fun cls => lit (class_name cls))
         provider_registry example_list_args) = Some 0
  /\ exists level lines,
       fst (cli.main example_database_args (fun cls => lit (class_name cls))
              provider_registry example_list_args)
       = cli.logging_basicConfig level :: map cli.print lines
       /\ List.length lines = 18%nat.
Proof.
  destruct (list_providers_only_prints example_database_args
              (fun cls => lit (class_name cls)) provider_registry example_list_args
              eq_refl) as (H0 & level & lines & E & Hl & _).
  split; [exact H0|]. exists level, lines. split; [exact E | exact Hl].
Defined.

(** X20. When a dump file is named (and the providers are not listed),
    [create_database_dump] is the last call of [main], made after the
    connection is closed, with the database arguments the connection
    was opened with, and also after a dry run, which has committed
    nothing; otherwise [main] never calls it. *)
Theorem dump_after_close
        (DATABASE_ARGS : list str) (doc : provider_class -> str) (providers : registry)
        (args : cli.Namespace) :
  let calls := fst (cli.main DATABASE_ARGS doc providers args) in
  match cli.list_providers args, cli.dump_file args with
  | false, Some (c :: file) =>
      exists before,
        calls = before ++ [cli.create_database_dump (c :: file)
                             (cli.get_pg_args DATABASE_ARGS args)]
        /\ In (cli.get_connection (cli.get_pg_args DATABASE_ARGS args)) before
        /\ In cli.connection_close before
        /\ (In cli.connection_commit before <-> cli.dry_run args = false)
        /\ Forall (fun c => ~ is_dump c) before
  | _, _ => Forall (fun c => ~ is_dump c) calls
  end.
Proof.
  intros calls.
  destruct (cli.list_providers args) eqn:Hl.
  - apply no_dump_without_file. now left.
  - destruct (cli.dump_file args) as [[|c file]|] eqn:Hd.
    + apply no_dump_without_file. now right; right.
    + now apply dump_is_last.
    + apply no_dump_without_file. now right; left.
Qed.

Lemma dict_of_distinct {V : Type} (pairs : list (str * V)) :
  NoDup (map fst pairs) -> cli.dict_of pairs = pairs.
Proof.
  unfold cli.dict_of.
  assert (Hset : forall (d : cli.dict V) k v,
             ~ In k (map fst d) -> cli.dict_set d k v = d ++ [(k, v)]).
  { induction d as [|[k0 v0] d IH]; intros k v Hk; [reflexivity|].
    cbn [cli.dict_set app map fst] in *.
    assert (Hne : str_eqb k0 k = false) by (apply str_eqb_neq; intros ->; apply Hk; now left).
    rewrite Hne, IH; [reflexivity|]. intros H. apply Hk. now right. }
  assert (G : forall ps acc, NoDup (map fst (acc ++ ps)) ->
                             fold_left (fun (d : cli.dict V) (kv : str * V) =>
                                          cli.dict_set d (fst kv) (snd kv)) ps acc
                             = acc ++ ps).
  { induction ps as [|[k v] ps IH]; intros acc Hn; [now rewrite app_nil_r|].
    cbn [fold_left fst snd]. rewrite Hset.
    - rewrite IH; rewrite <- app_assoc; [reflexivity | exact Hn].
    - rewrite map_app in Hn. cbn [map fst] in Hn.
      apply NoDup_remove_2 in Hn. intros H. apply Hn. apply in_or_app. now left. }
  intros Hn. now apply (G pairs []).
Qed.

(** X21. With pairwise distinct keys in [DATABASE_ARGS], [get_pg_args]
    binds the keys, in order, to the database name, the user, the
    password, the host and the port: the first five keys each to its
    argument, keys beyond the fifth to nothing, and arguments beyond
    the number of keys are dropped. *)
Theorem get_pg_args_binds_in_order (DATABASE_ARGS : list str) (args : cli.Namespace) :
  NoDup DATABASE_ARGS ->
  cli.get_pg_args DATABASE_ARGS args
  = combine DATABASE_ARGS
            [cli.dbname args; cli.user args; Some (cli.password args);
             Some (cli.host args); Some (cli.port args)]
  /\ List.length (cli.get_pg_args DATABASE_ARGS args)
     = Nat.min (List.length DATABASE_ARGS) 5
  /\ forall i key,
       nth_error DATABASE_ARGS i = Some key -> (i < 5)%nat ->
       option_map Some (cli.dict_get (cli.get_pg_args DATABASE_ARGS args) key)
       = nth_error [Some (cli.dbname args); Some (cli.user args);
                    Some (Some (cli.password args)); Some (Some (cli.host args));
                    Some (Some (cli.port args))] i.
Proof.
  intros Hn.
  assert (E : cli.get_pg_args DATABASE_ARGS args
              = combine DATABASE_ARGS
                  [cli.dbname args; cli.user args; Some (cli.password args);
                   Some (cli.host args); Some (cli.port args)]).
  { unfold cli.get_pg_args. apply dict_of_distinct.
    set (vs := [_; _; _; _; _]). clearbody vs.
    revert vs. induction Hn as [|k ks Hk _ IH]; intros [|v vs]; cbn [combine map fst];
      try constructor; [|apply IH].
    intros H. apply Hk. apply in_map_iff in H. destruct H as ([k' v'] & <- & H).
    now apply in_combine_l in H. }
  split; [exact E|]. split.
  - rewrite E, length_combine. reflexivity.
  - rewrite E. clear E. set (vs := [_; _; _; _; _]).
    change [Some (cli.dbname args); Some (cli.user args);
            Some (Some (cli.password args)); Some (Some (cli.host args));
            Some (Some (cli.port args))] with (map Some vs).
    assert (Hl : List.length vs = 5%nat) by reflexivity. clearbody vs.
    intros i key Hi Hlt. rewrite <- Hl in Hlt. clear Hl.
    revert vs i Hi Hlt. induction Hn as [|k ks Hk _ IH]; intros vs i Hi Hlt.
    + destruct i; discriminate.
    + destruct vs as [|v vs]; [cbn [List.length] in Hlt; lia|].
      destruct i as [|i]; cbn [nth_error combine cli.dict_get map] in *.
      * injection Hi as <-. now rewrite str_eqb_refl.
      * assert (Hne : str_eqb k key = false).
        { apply str_eqb_neq. intros ->. apply Hk. eapply nth_error_In, Hi. }
        rewrite Hne. apply IH; [exact Hi | cbn [List.length] in Hlt; lia].
Qed.

Lemma get_pg_args_binds_in_order_example :
  cli.get_pg_args example_database_args example_args
  = [(lit "dbname", Some (lit "db")); (lit "user", Some (lit "me"));
     (lit "password", Some []); (lit "host", Some (lit "localhost"));
     (lit "port", Some (lit "5432"))].
Proof.
  apply (get_pg_args_binds_in_order example_database_args example_args).
  repeat constructor; cbn [In]; intuition discriminate.
Defined.

Lemma partial_mask_length_and_idempotence_example :
  List.length (PartialMaskProvider.alter_value (lit "1234567890")
                 (mkKwargs None (Some 2) (Some 3) None None)) = 10%nat
  /\ PartialMaskProvider.alter_value
       (PartialMaskProvider.alter_value (lit "1234567890")
          (mkKwargs None (Some 2) (Some 3) None None))
       (mkKwargs None (Some 2) (Some 3) None None)
     = PartialMaskProvider.alter_value (lit "1234567890")
         (mkKwargs None (Some 2) (Some 3) None None).
Proof.
  apply (partial_mask_length_and_idempotence (lit "1234567890")
           (mkKwargs None (Some 2) (Some 3) None None) "X"%char);
    [reflexivity | | |]; vm_compute; discriminate.
Defined.
